(** * ReorderQueue: a drop-tail FIFO that injects bounded reordering

    Shallow embedding of [src/network/utils/reorder-queue.h]
    (template class [ns3::ReorderQueue<Item>]) and the properties of its
    [Enqueue] / [Dequeue] / [Remove] operations.

    Conventions.
    - A [uint32_t] is a [Z]; every arithmetic operation the source performs
      on one is followed by [wrap32], its reduction modulo 2^32.
    - A [Ptr<Item>] that may be null is an [option Item]; [None] is the null
      pointer (the source's [return 0]).
    - [std::queue<Ptr<Item>>] is a [list Item] whose head is [front ()];
      [push] appends at the back, [pop] drops the head.
    - The side effects the source performs on its collaborators
      ([DropBeforeEnqueue], the [NS_LOG_LOGIC] messages) are returned by each
      operation as a list of [Effect]s, in program order. *)

From Stdlib Require Import ZArith List Bool Lia Permutation.
Import ListNotations.

Local Open Scope Z_scope.

(** ** Machine integers *)

Definition UINT32_MOD : Z := 2 ^ 32.

Definition wrap32 (z : Z) : Z := z mod UINT32_MOD.

Definition is_uint32 (z : Z) : Prop := 0 <= z < UINT32_MOD.

Arguments wrap32 : simpl never.

(** ** The transported item

    The template parameter [Item] is opaque to the queue except for
    [GetSize ()], which returns a [uint32_t]. *)

Class Sized (Item : Type) : Type := GetSize : Item -> Z.

(** [ns3::Packet], the instance the header declares
    ([extern template class ReorderQueue<Packet>]): a unique id and a size. *)
Record Packet : Type := mkPacket {
  GetUid : Z;
  PacketSize : Z
}.

#[export] Instance Packet_Sized : Sized Packet := PacketSize.

(** ** Queue size *)

(** Modelled from the spec: [QueueSizeUnit] of [queue-size.h], which the
    header includes but which is not part of the sources at hand.  The
    capacity limit is expressed either in element count or in total bytes. *)
Inductive QueueSizeUnit : Type := PACKETS | BYTES.

Definition QueueSizeUnit_eqb (a b : QueueSizeUnit) : bool :=
  match a, b with
  | PACKETS, PACKETS => true
  | BYTES, BYTES => true
  | _, _ => false
  end.

(** Modelled from the spec: [QueueSize] of [queue-size.h]: a unit and a
    value, which the source compares with [uint32_t] quantities. *)
Record QueueSize : Type := mkQueueSize {
  GetUnit : QueueSizeUnit;
  GetValue : Z
}.

Section ReorderQueue.

Context {Item : Type} `{Sized Item}.

(** ** Effects on the collaborators *)

(** The [NS_LOG_LOGIC] messages of the three operations. *)
Inductive LogMsg : Type :=
| LogQueueFullPackets          (* "Queue full (at max packets) -- droppping pkt" *)
| LogQueueFullBytes            (* "Queue full (packet would exceed max bytes) ..." *)
| LogNumberPackets (n : nat)   (* "Number packets " << m_packets.size () *)
| LogNumberBytes (b : Z)       (* "Number bytes " << m_bytesInQueue *)
| LogQueueEmpty                (* "Queue empty" *)
| LogReleased (p : Item)       (* "Released " << p->GetUid () *)
| LogHold (p : Item)           (* "Hold " << m_held->GetUid () *)
| LogReleaseAnyway (p : Item)  (* "Release " << ... << " anyway" *)
| LogPopped (p : Item)         (* "Popped " << p *)
| LogRemoved (p : option Item) (* "Removed " << item *).

(** The effects of an operation on its collaborators: an item reported to
    the drop trace, or a log message. *)
Inductive Effect : Type :=
| Drop (item : Item)
| NS_LOG_LOGIC (msg : LogMsg).

(** Modelled from the spec: [DropBeforeEnqueue] of the base class
    [Queue<Item>] ([queue.h], not part of the sources at hand).  The item is
    reported as dropped, a notification to the drop-trace collaborator, and
    is not retained anywhere. *)
Definition DropBeforeEnqueue (item : Item) : list Effect := [Drop item].

(** ** The data members of the class *)

Record ReorderQueue : Type := mkReorderQueue {
  m_maxSize : QueueSize;          (* max queue size *)
  m_packets : list Item;          (* the packets in the queue *)
  m_bytesInQueue : Z;             (* actual bytes in the queue *)
  m_reorderDepth : Z;
  m_inSequenceLength : Z;
  m_holdCount : Z;
  m_inSequenceCount : Z;
  m_held : option Item;
  Queue_container : list Item     (* the container of the base class
                                     Queue<Item>: what GetContainer ()
                                     returns *)
}.

Definition set_packets (ps : list Item) (q : ReorderQueue) : ReorderQueue :=
  mkReorderQueue (m_maxSize q) ps (m_bytesInQueue q) (m_reorderDepth q)
    (m_inSequenceLength q) (m_holdCount q) (m_inSequenceCount q) (m_held q)
    (Queue_container q).

Definition set_bytesInQueue (b : Z) (q : ReorderQueue) : ReorderQueue :=
  mkReorderQueue (m_maxSize q) (m_packets q) b (m_reorderDepth q)
    (m_inSequenceLength q) (m_holdCount q) (m_inSequenceCount q) (m_held q)
    (Queue_container q).

Definition set_holdCount (n : Z) (q : ReorderQueue) : ReorderQueue :=
  mkReorderQueue (m_maxSize q) (m_packets q) (m_bytesInQueue q)
    (m_reorderDepth q) (m_inSequenceLength q) n (m_inSequenceCount q)
    (m_held q) (Queue_container q).

Definition set_inSequenceCount (n : Z) (q : ReorderQueue) : ReorderQueue :=
  mkReorderQueue (m_maxSize q) (m_packets q) (m_bytesInQueue q)
    (m_reorderDepth q) (m_inSequenceLength q) (m_holdCount q) n (m_held q)
    (Queue_container q).

Definition set_held (h : option Item) (q : ReorderQueue) : ReorderQueue :=
  mkReorderQueue (m_maxSize q) (m_packets q) (m_bytesInQueue q)
    (m_reorderDepth q) (m_inSequenceLength q) (m_holdCount q)
    (m_inSequenceCount q) h (Queue_container q).

Definition set_Queue_container (c : list Item) (q : ReorderQueue) : ReorderQueue :=
  mkReorderQueue (m_maxSize q) (m_packets q) (m_bytesInQueue q)
    (m_reorderDepth q) (m_inSequenceLength q) (m_holdCount q)
    (m_inSequenceCount q) (m_held q) c.

(** The constructor: the base class is built first ([Queue<Item> ()], an
    empty container), then empty [m_packets], [m_bytesInQueue], [m_holdCount]
    and [m_inSequenceCount] at 0, [m_held] null.  The three attributes
    ([MaxLength], [ReorderDepth], [InSequenceLength]) are set from the
    attribute system. *)
Definition ReorderQueue_new (maxSize : QueueSize) (reorderDepth inSequenceLength : Z)
  : ReorderQueue :=
  mkReorderQueue maxSize [] 0 reorderDepth inSequenceLength 0 0 None [].

(** The attribute defaults of [GetTypeId]: "100p", 5 and 3. *)
Definition default_queue : ReorderQueue :=
  ReorderQueue_new (mkQueueSize PACKETS 100) 5 3.

(** ** Enqueue (lines 124-151) *)

Definition Enqueue (item : Item) (q : ReorderQueue)
  : bool * ReorderQueue * list Effect :=
  if QueueSizeUnit_eqb (GetUnit (m_maxSize q)) PACKETS
     && (Z.of_nat (length (m_packets q)) >=? GetValue (m_maxSize q))
  then
    (false, q, NS_LOG_LOGIC LogQueueFullPackets :: DropBeforeEnqueue item)
  else if QueueSizeUnit_eqb (GetUnit (m_maxSize q)) BYTES
          && (wrap32 (m_bytesInQueue q + GetSize item) >=? GetValue (m_maxSize q))
  then
    (false, q, NS_LOG_LOGIC LogQueueFullBytes :: DropBeforeEnqueue item)
  else
    let q1 := set_bytesInQueue (wrap32 (m_bytesInQueue q + GetSize item)) q in
    let q2 := set_packets (m_packets q1 ++ [item]) q1 in
    (true, q2,
     [NS_LOG_LOGIC (LogNumberPackets (length (m_packets q2)));
      NS_LOG_LOGIC (LogNumberBytes (m_bytesInQueue q2))]).

(** ** Dequeue (lines 153-213) *)

(** The two messages that end every path of [Dequeue] but the early
    returns (lines 209-210). *)
Definition log_numbers (q : ReorderQueue) : list Effect :=
  [NS_LOG_LOGIC (LogNumberPackets (length (m_packets q)));
   NS_LOG_LOGIC (LogNumberBytes (m_bytesInQueue q))].

(** Lines 168-173: the held packet is released. *)
Definition release_held (p : Item) (q : ReorderQueue)
  : option Item * ReorderQueue * list Effect :=
  let q1 := set_held None q in
  let q2 := set_bytesInQueue (wrap32 (m_bytesInQueue q1 - GetSize p)) q1 in
  let q3 := set_inSequenceCount 0 q2 in
  let q4 := set_holdCount 0 q3 in
  (Some p, q4, NS_LOG_LOGIC (LogReleased p) :: log_numbers q4).

(** Lines 180-184: the head [front] of the queue ([rest] follows it) is set
    aside in [m_held]; both counters restart. *)
Definition hold_front (front : Item) (rest : list Item) (q : ReorderQueue)
  : ReorderQueue :=
  let q1 := set_held (Some front) q in
  let q2 := set_packets rest q1 in
  let q3 := set_inSequenceCount 0 q2 in
  set_holdCount 0 q3.

(** Lines 189-192: the packet just held is released after all. *)
Definition release_anyway (p : Item) (q : ReorderQueue)
  : option Item * ReorderQueue * list Effect :=
  let q1 := set_held None q in
  let q2 := set_bytesInQueue (wrap32 (m_bytesInQueue q1 - GetSize p)) q1 in
  (Some p, q2, [NS_LOG_LOGIC (LogReleaseAnyway p)]).

(** Lines 195-206: the head [p] is popped and returned; [m_holdCount] or
    [m_inSequenceCount] is incremented. *)
Definition pop_front (p : Item) (rest : list Item) (q : ReorderQueue)
  : option Item * ReorderQueue * list Effect :=
  let q1 := set_packets rest q in
  let q2 := set_bytesInQueue (wrap32 (m_bytesInQueue q1 - GetSize p)) q1 in
  let q3 := match m_held q2 with
            | Some _ => set_holdCount (wrap32 (m_holdCount q2 + 1)) q2
            | None => set_inSequenceCount (wrap32 (m_inSequenceCount q2 + 1)) q2
            end in
  (Some p, q3, NS_LOG_LOGIC (LogPopped p) :: log_numbers q3).

(** Lines 176-207, the [else] branch; [front :: rest] is [m_packets]. *)
Definition Dequeue_else (front : Item) (rest : list Item) (q : ReorderQueue)
  : option Item * ReorderQueue * list Effect :=
  if m_inSequenceCount q =? m_inSequenceLength q then
    let q1 := hold_front front rest q in
    match m_packets q1 with
    | [] =>
        let '(r, q2, es) := release_anyway front q1 in
        (r, q2, NS_LOG_LOGIC (LogHold front) :: es)
    | p :: rest' =>
        let '(r, q2, es) := pop_front p rest' q1 in
        (r, q2, NS_LOG_LOGIC (LogHold front) :: es)
    end
  else pop_front front rest q.

(** [if (m_holdCount == m_reorderDepth && m_held)] is the case
    [Some p, true] below. *)
Definition Dequeue (q : ReorderQueue) : option Item * ReorderQueue * list Effect :=
  match m_packets q with
  | [] => (None, q, [NS_LOG_LOGIC LogQueueEmpty])
  | front :: rest =>
      match m_held q, m_holdCount q =? m_reorderDepth q with
      | Some p, true => release_held p q
      | _, _ => Dequeue_else front rest q
      end
  end.

(** ** Remove (lines 215-226) *)

(** Modelled from the spec: [DoRemove] and [GetContainer] of the base class
    [Queue<Item>] ([queue.h], not part of the sources at hand).
    [GetContainer ()] is the container of the base class.  It is not
    [m_packets]: that member is a private [std::queue] of [ReorderQueue]
    (line 65), which has no [begin ()], and [Enqueue] pushes into it directly
    (line 145) without going through [DoEnqueue]; no operation of this class
    puts anything into the base container.  [DoRemove (pos)] evicts and
    returns the element at [pos] of that container, with no interaction with
    [m_held], [m_holdCount], [m_inSequenceCount] or the byte-accounting
    counter; with nothing to evict it returns null. *)
Definition DoRemove_begin (q : ReorderQueue) : option Item * ReorderQueue :=
  match Queue_container q with
  | [] => (None, q)
  | item :: rest => (Some item, set_Queue_container rest q)
  end.

Definition Remove (q : ReorderQueue) : option Item * ReorderQueue * list Effect :=
  let '(item, q1) := DoRemove_begin q in
  (item, q1, [NS_LOG_LOGIC (LogRemoved item)]).

(** ** Runs: finite sequences of operations *)

Inductive Op : Type :=
| OpEnqueue (item : Item)
| OpDequeue
| OpRemove.

Inductive Result : Type :=
| REnqueue (accepted : bool)
| RDequeue (p : option Item)
| RRemove (p : option Item).

Definition step (o : Op) (q : ReorderQueue) : Result * ReorderQueue * list Effect :=
  match o with
  | OpEnqueue item => let '(b, q', es) := Enqueue item q in (REnqueue b, q', es)
  | OpDequeue => let '(p, q', es) := Dequeue q in (RDequeue p, q', es)
  | OpRemove => let '(p, q', es) := Remove q in (RRemove p, q', es)
  end.

(** [run ops q]: the results of the calls, the final state and all the
    effects, in order. *)
Fixpoint run (ops : list Op) (q : ReorderQueue)
  : list Result * ReorderQueue * list Effect :=
  match ops with
  | [] => ([], q, [])
  | o :: ops' =>
      let '(r, q1, es1) := step o q in
      let '(rs, q2, es2) := run ops' q1 in
      (r :: rs, q2, es1 ++ es2)
  end.

Definition ret_of {A : Type} (x : A * ReorderQueue * list Effect) : A :=
  fst (fst x).
Definition state_of {A : Type} (x : A * ReorderQueue * list Effect) : ReorderQueue :=
  snd (fst x).
Definition effects_of {A : Type} (x : A * ReorderQueue * list Effect) : list Effect :=
  snd x.

(** What the [Dequeue] calls of a run returned, in order. *)
Fixpoint dequeued (rs : list Result) : list (option Item) :=
  match rs with
  | [] => []
  | RDequeue p :: rs' => p :: dequeued rs'
  | _ :: rs' => dequeued rs'
  end.

(** What the [Enqueue] calls of a run returned, in order. *)
Fixpoint enqueued (rs : list Result) : list bool :=
  match rs with
  | [] => []
  | REnqueue b :: rs' => b :: enqueued rs'
  | _ :: rs' => enqueued rs'
  end.

(** The items reported to the drop trace by a list of effects. *)
Fixpoint drops_of (es : list Effect) : list Item :=
  match es with
  | [] => []
  | Drop item :: es' => item :: drops_of es'
  | _ :: es' => drops_of es'
  end.

(** ** Quantities the properties speak about *)

(** Sum of the sizes of the items of a store. *)
Fixpoint bytes_of (ps : list Item) : Z :=
  match ps with
  | [] => 0
  | p :: ps' => GetSize p + bytes_of ps'
  end.

(** Size of the held item, if any. *)
Definition held_bytes (h : option Item) : Z :=
  match h with
  | Some p => GetSize p
  | None => 0
  end.

(** Reading a trace of effects for reordering events.  The reader keeps
    whether an item is currently held and how many items were popped since
    the last hold or release event; it fails ([None]) as soon as a pop
    exceeds the bound that applies: [D] pops while an item is held, [L] pops
    while none is. *)
Definition scan_step (L D : Z) (s : bool * Z) (e : Effect) : option (bool * Z) :=
  match e with
  | NS_LOG_LOGIC (LogPopped _) =>
      let n := snd s + 1 in
      if n <=? (if fst s then D else L) then Some (fst s, n) else None
  | NS_LOG_LOGIC (LogHold _) => Some (true, 0)
  | NS_LOG_LOGIC (LogReleased _) => Some (false, 0)
  | NS_LOG_LOGIC (LogReleaseAnyway _) => Some (false, 0)
  | _ => Some s
  end.

Fixpoint scan (L D : Z) (s : bool * Z) (es : list Effect) : option (bool * Z) :=
  match es with
  | [] => Some s
  | e :: es' =>
      match scan_step L D s e with
      | Some s' => scan L D s' es'
      | None => None
      end
  end.

(** The hold, pop and release messages of a trace, the others left out. *)
Fixpoint reorder_events (es : list Effect) : list LogMsg :=
  match es with
  | [] => []
  | NS_LOG_LOGIC (LogPopped p) :: es' => LogPopped p :: reorder_events es'
  | NS_LOG_LOGIC (LogHold p) :: es' => LogHold p :: reorder_events es'
  | NS_LOG_LOGIC (LogReleased p) :: es' => LogReleased p :: reorder_events es'
  | NS_LOG_LOGIC (LogReleaseAnyway p) :: es' =>
      LogReleaseAnyway p :: reorder_events es'
  | _ :: es' => reorder_events es'
  end.

(** A trace has bounded reordering when the reader, started with nothing
    held and no pop counted, never fails on it. *)
Definition bounded_reordering (L D : Z) (es : list Effect) : Prop :=
  scan L D (false, 0) es <> None.

(** The two counters agree with the held slot: [m_holdCount] counts only
    while an item is held, [m_inSequenceCount] only while none is. *)
Definition counters_consistent (q : ReorderQueue) : Prop :=
  (m_held q = None -> m_holdCount q = 0)
  /\ (m_held q <> None -> m_inSequenceCount q = 0).

Definition counters_bounded (q : ReorderQueue) : Prop :=
  0 <= m_inSequenceCount q <= m_inSequenceLength q
  /\ 0 <= m_holdCount q <= m_reorderDepth q.

(** The attributes, which no operation writes. *)
Definition same_config (q q' : ReorderQueue) : Prop :=
  m_maxSize q' = m_maxSize q
  /\ m_reorderDepth q' = m_reorderDepth q
  /\ m_inSequenceLength q' = m_inSequenceLength q.

(** The items the [Enqueue] calls of a run accepted ([rs] are the results of
    the calls [ops]). *)
Fixpoint accepted (ops : list Op) (rs : list Result) : list Item :=
  match ops, rs with
  | OpEnqueue item :: ops', REnqueue true :: rs' => item :: accepted ops' rs'
  | _ :: ops', _ :: rs' => accepted ops' rs'
  | _, _ => []
  end.

(** The items the [Dequeue] and [Remove] calls of a run returned. *)
Fixpoint returned (rs : list Result) : list Item :=
  match rs with
  | [] => []
  | RDequeue (Some p) :: rs' => p :: returned rs'
  | RRemove (Some p) :: rs' => p :: returned rs'
  | _ :: rs' => returned rs'
  end.

Definition held_items (h : option Item) : list Item :=
  match h with
  | Some p => [p]
  | None => []
  end.

(** Where the reader of traces stands for a given state of the queue. *)
Definition scan_state (q : ReorderQueue) : bool * Z :=
  match m_held q with
  | Some _ => (true, m_holdCount q)
  | None => (false, m_inSequenceCount q)
  end.

(** The consumer calls chosen by a list of booleans: [true] is a [Dequeue],
    [false] a [Remove]. *)
Definition consumer_calls (ks : list bool) : list Op :=
  map (fun k : bool => if k then OpDequeue else OpRemove) ks.

(** The items a trace shows leaving the queue, in order: those popped,
    released, or released anyway. *)
Fixpoint released_of (es : list Effect) : list Item :=
  match es with
  | [] => []
  | NS_LOG_LOGIC (LogPopped p) :: es' => p :: released_of es'
  | NS_LOG_LOGIC (LogReleased p) :: es' => p :: released_of es'
  | NS_LOG_LOGIC (LogReleaseAnyway p) :: es' => p :: released_of es'
  | _ :: es' => released_of es'
  end.

(** The items the [Dequeue] calls of a run returned, in order. *)
Fixpoint dequeued_items (rs : list Result) : list Item :=
  match rs with
  | [] => []
  | RDequeue (Some p) :: rs' => p :: dequeued_items rs'
  | _ :: rs' => dequeued_items rs'
  end.

(** A sequence of producer and consumer calls: [Some item] is
    [Enqueue (item)], [None] is [Dequeue ()]. *)
Definition queue_calls (cs : list (option Item)) : list Op :=
  map (fun c : option Item =>
         match c with
         | Some item => OpEnqueue item
         | None => OpDequeue
         end) cs.

(** The items the [Enqueue] calls of a run rejected, in order. *)
Fixpoint rejected (ops : list Op) (rs : list Result) : list Item :=
  match ops, rs with
  | OpEnqueue item :: ops', REnqueue false :: rs' => item :: rejected ops' rs'
  | _ :: ops', _ :: rs' => rejected ops' rs'
  | _, _ => []
  end.

(** An item offered to a queue limited to [B] bytes is small enough for the
    32-bit sum of the admission test not to wrap. *)
Definition call_fits (B : Z) (c : option Item) : Prop :=
  match c with
  | Some item => 0 <= GetSize item /\ GetSize item + B <= UINT32_MOD
  | None => True
  end.

(** The byte counter is exactly what the Store and the held slot contain,
    all sizes are non-negative, and the counter is below the limit [B]. *)
Definition bytes_exact (B : Z) (q : ReorderQueue) : Prop :=
  m_bytesInQueue q = bytes_of (m_packets q) + held_bytes (m_held q)
  /\ 0 <= m_bytesInQueue q < B
  /\ Forall (fun p => 0 <= GetSize p) (m_packets q)
  /\ 0 <= held_bytes (m_held q).

End ReorderQueue.

Arguments ReorderQueue Item : clear implicits.
Arguments Op Item : clear implicits.
Arguments Result Item : clear implicits.
Arguments Effect Item : clear implicits.
Arguments LogMsg Item : clear implicits.

(** ** Concrete packets for the scenarios *)

(** Two packets whose sizes add up to 2^32, and one that makes a small byte
    counter wrap. *)
Definition pktHalf1 : Packet := mkPacket 7 (2 ^ 31).
Definition pktHalf2 : Packet := mkPacket 8 (2 ^ 31).
Definition pktSmall : Packet := mkPacket 9 10.
Definition pktHuge : Packet := mkPacket 10 (2 ^ 32 - 5).

(** The packet of 100 bytes with unique id [n]. *)
Definition pkt (n : Z) : Packet := mkPacket n 100.

Definition pktA : Packet := mkPacket 1 100.
Definition pktB : Packet := mkPacket 2 100.
Definition pktC : Packet := mkPacket 3 100.
Definition pktD : Packet := mkPacket 4 100.
Definition pktE : Packet := mkPacket 5 100.
Definition pktF : Packet := mkPacket 6 100.

(** The scenario of the specification: six items enqueued in order into a
    queue with the default attributes, then [n] calls of [Dequeue]. *)
Definition scenario {Item : Type} `{Sized Item} (a b c d e f : Item) (n : nat)
  : list (Op Item) :=
  map OpEnqueue [a; b; c; d; e; f] ++ repeat OpDequeue n.

(** * Properties *)

Section Properties.

Context {Item : Type} `{Sized Item}.

Implicit Types (q : ReorderQueue Item) (item p : Item).

(** ** Scenario of the defaults *)

(** C1 (as amended).  With the default configuration, after enqueueing
    a, b, c, d, e, f in order (all six are accepted), the first five calls of
    [Dequeue] return a, b, c, e, f: the hold fires on the fourth call, which
    sets d aside and returns e. *)
Theorem C1_scenario_first_five (a b c d e f : Item) :
  enqueued (ret_of (run (scenario a b c d e f 5) default_queue))
    = [true; true; true; true; true; true]
  /\ dequeued (ret_of (run (scenario a b c d e f 5) default_queue))
    = [Some a; Some b; Some c; Some e; Some f]
  /\ m_held (state_of (run (scenario a b c d e f 3) default_queue)) = None
  /\ m_held (state_of (run (scenario a b c d e f 4) default_queue)) = Some d.
Proof.
  repeat split; reflexivity.
Qed.

(** ** Admission *)

(** C5 (as amended).  In element-count mode with limit L, [Enqueue] returns
    true iff the pre-call Store length is strictly less than L; in byte mode
    with limit B, [Enqueue] returns true iff the 32-bit sum of the byte
    counter and the item's size, that is their sum modulo 2^32, is strictly
    less than B. *)
Theorem C5_admission item q :
  match GetUnit (m_maxSize q) with
  | PACKETS =>
      ret_of (Enqueue item q) = true
      <-> Z.of_nat (length (m_packets q)) < GetValue (m_maxSize q)
  | BYTES =>
      ret_of (Enqueue item q) = true
      <-> wrap32 (m_bytesInQueue q + GetSize item) < GetValue (m_maxSize q)
  end.
Proof.
  unfold Enqueue.
  destruct (GetUnit (m_maxSize q)); simpl.
  - destruct (Z.geb_spec (Z.of_nat (length (m_packets q))) (GetValue (m_maxSize q)));
      simpl; split; intros; try discriminate; try reflexivity; lia.
  - destruct (Z.geb_spec (wrap32 (m_bytesInQueue q + GetSize item))
                (GetValue (m_maxSize q)));
      simpl; split; intros; try discriminate; try reflexivity; lia.
Qed.

(** Where the 32-bit sum does not wrap, the byte-mode test is the one on the
    mathematical sum. *)
Lemma Enqueue_bytes_no_wrap item q :
  GetUnit (m_maxSize q) = BYTES ->
  0 <= m_bytesInQueue q + GetSize item < 2 ^ 32 ->
  (ret_of (Enqueue item q) = true
   <-> m_bytesInQueue q + GetSize item < GetValue (m_maxSize q)).
Proof.
  intros Hu Hr.
  unfold Enqueue. rewrite Hu. simpl.
  unfold wrap32, UINT32_MOD. rewrite Z.mod_small by exact Hr.
  destruct (Z.geb_spec (m_bytesInQueue q + GetSize item) (GetValue (m_maxSize q)));
    simpl; split; intros; try discriminate; try reflexivity; lia.
Qed.

(** C9.  Whenever [Enqueue] rejects an item it returns false, reports exactly
    that item, once, to the drop trace, and leaves the queue as it was: Store,
    byte counter, held slot, holdCount and inSequenceCount are unchanged. *)
Theorem C9_rejection item q :
  ret_of (Enqueue item q) = false ->
  drops_of (effects_of (Enqueue item q)) = [item]
  /\ state_of (Enqueue item q) = q
  /\ m_packets (state_of (Enqueue item q)) = m_packets q
  /\ m_bytesInQueue (state_of (Enqueue item q)) = m_bytesInQueue q
  /\ m_held (state_of (Enqueue item q)) = m_held q
  /\ m_holdCount (state_of (Enqueue item q)) = m_holdCount q
  /\ m_inSequenceCount (state_of (Enqueue item q)) = m_inSequenceCount q.
Proof.
  unfold Enqueue.
  destruct (QueueSizeUnit_eqb (GetUnit (m_maxSize q)) PACKETS
            && (Z.of_nat (length (m_packets q)) >=? GetValue (m_maxSize q))).
  - intros _. repeat split; reflexivity.
  - destruct (QueueSizeUnit_eqb (GetUnit (m_maxSize q)) BYTES
              && (wrap32 (m_bytesInQueue q + GetSize item) >=? GetValue (m_maxSize q))).
    + intros _. repeat split; reflexivity.
    + simpl. discriminate.
Qed.

(** ** Remove *)

(** C7 (the code at the failing input).  With the default configuration,
    after a and b are enqueued, [Remove] returns no item and the Store still
    is a, b: the call goes to the container of the base class, which holds
    nothing.  The held slot, holdCount, inSequenceCount and the byte counter
    are left as they were. *)
Theorem C7_Remove_keeps_Store (a b : Item) :
  let q := state_of (run [OpEnqueue a; OpEnqueue b] default_queue) in
  m_packets q = [a; b]
  /\ ret_of (Remove q) = None
  /\ m_packets (state_of (Remove q)) = [a; b]
  /\ m_held (state_of (Remove q)) = m_held q
  /\ m_holdCount (state_of (Remove q)) = m_holdCount q
  /\ m_inSequenceCount (state_of (Remove q)) = m_inSequenceCount q
  /\ m_bytesInQueue (state_of (Remove q)) = m_bytesInQueue q.
Proof.
  repeat split; reflexivity.
Qed.

(** ** Drain safety *)

(** C8.  In a [Dequeue] call that takes the normal branch with the hold
    trigger reached while the Store holds a single item x, the hold of x
    empties the Store and is undone at once: the call returns x, the held
    slot is clear afterwards and the byte counter has been decremented (as a
    32-bit counter) by the size of x. *)
Theorem C8_drain_safety q (x : Item) :
  m_packets q = [x] ->
  (m_held q = None \/ m_holdCount q <> m_reorderDepth q) ->
  m_inSequenceCount q = m_inSequenceLength q ->
  ret_of (Dequeue q) = Some x
  /\ m_held (state_of (Dequeue q)) = None
  /\ m_packets (state_of (Dequeue q)) = []
  /\ m_bytesInQueue (state_of (Dequeue q)) = wrap32 (m_bytesInQueue q - GetSize x)
  /\ effects_of (Dequeue q)
     = [NS_LOG_LOGIC (LogHold x); NS_LOG_LOGIC (LogReleaseAnyway x)].
Proof.
  intros Hq Hbranch Htrig.
  assert (Helse : Dequeue q = Dequeue_else x [] q).
  { unfold Dequeue. rewrite Hq.
    destruct (m_held q) as [h|]; [|reflexivity].
    destruct (Z.eqb_spec (m_holdCount q) (m_reorderDepth q)); [|reflexivity].
    destruct Hbranch; [discriminate | contradiction]. }
  rewrite Helse. unfold Dequeue_else.
  rewrite Htrig, Z.eqb_refl. simpl.
  repeat split; reflexivity.
Qed.

(** ** Runs *)

Lemma run_app (ops1 ops2 : list (Op Item)) q :
  run (ops1 ++ ops2) q =
  (ret_of (run ops1 q) ++ ret_of (run ops2 (state_of (run ops1 q))),
   state_of (run ops2 (state_of (run ops1 q))),
   effects_of (run ops1 q) ++ effects_of (run ops2 (state_of (run ops1 q)))).
Proof.
  unfold ret_of, state_of, effects_of.
  revert q. induction ops1 as [|o ops1 IH]; intros q; simpl.
  - destruct (run ops2 q) as [[rs q2] es]. reflexivity.
  - destruct (step o q) as [[r q1] es1]. rewrite IH.
    destruct (run ops1 q1) as [[rs1 q2] es2]. simpl.
    rewrite app_assoc. reflexivity.
Qed.

Lemma run_cons (o : Op Item) (ops : list (Op Item)) q :
  run (o :: ops) q =
  (ret_of (step o q) :: ret_of (run ops (state_of (step o q))),
   state_of (run ops (state_of (step o q))),
   effects_of (step o q) ++ effects_of (run ops (state_of (step o q)))).
Proof.
  unfold ret_of, state_of, effects_of.
  simpl. destruct (step o q) as [[r q1] es1]. simpl.
  destruct (run ops q1) as [[rs q2] es2]. reflexivity.
Qed.

(** A property of states kept by every operation holds along every run. *)
Lemma run_invariant (P : ReorderQueue Item -> Prop) :
  (forall o q, P q -> P (state_of (step o q))) ->
  forall ops q, P q -> P (state_of (run ops q)).
Proof.
  intros Hstep ops. induction ops as [|o ops IH]; intros q Hq.
  - exact Hq.
  - rewrite run_cons. unfold state_of at 1. simpl. apply IH, Hstep, Hq.
Qed.

(** Case analysis along the paths of [Dequeue]. *)
Ltac dequeue_paths q :=
  unfold Dequeue, Dequeue_else, release_held, release_anyway, pop_front,
    hold_front, log_numbers;
  let front := fresh "front" in
  let rest := fresh "rest" in
  let Hpk := fresh "Hpk" in
  let Hheld := fresh "Hheld" in
  let Hhc := fresh "Hhc" in
  let Hseq := fresh "Hseq" in
  destruct (m_packets q) as [|front rest] eqn:Hpk;
  [ | destruct (m_held q) eqn:Hheld;
      [ destruct (Z.eqb_spec (m_holdCount q) (m_reorderDepth q)) as [Hhc|Hhc] | ];
      try (destruct (Z.eqb_spec (m_inSequenceCount q) (m_inSequenceLength q))
             as [Hseq|Hseq];
           [ destruct rest | ]) ];
  cbn [ret_of state_of effects_of fst snd m_packets m_held m_holdCount
       m_inSequenceCount m_bytesInQueue m_maxSize m_reorderDepth
       m_inSequenceLength Queue_container set_packets set_held set_holdCount
       set_inSequenceCount set_bytesInQueue set_Queue_container];
  try rewrite Hheld.

Ltac step_paths o q :=
  destruct o as [item| |];
  [ unfold step, Enqueue;
    destruct (QueueSizeUnit_eqb (GetUnit (m_maxSize q)) PACKETS
              && (Z.of_nat (length (m_packets q)) >=? GetValue (m_maxSize q)));
    [ | destruct (QueueSizeUnit_eqb (GetUnit (m_maxSize q)) BYTES
                  && (wrap32 (m_bytesInQueue q + GetSize item)
                      >=? GetValue (m_maxSize q))) ]
  | unfold step; dequeue_paths q
  | unfold step, Remove, DoRemove_begin;
    let x := fresh "x" in
    let rest := fresh "rest" in
    let Hbase := fresh "Hbase" in
    destruct (Queue_container q) as [|x rest] eqn:Hbase ];
  cbn [ret_of state_of effects_of fst snd m_packets m_held m_holdCount
       m_inSequenceCount m_bytesInQueue m_maxSize m_reorderDepth
       m_inSequenceLength Queue_container set_packets set_held set_holdCount
       set_inSequenceCount set_bytesInQueue set_Queue_container].

Lemma step_same_config (o : Op Item) q : same_config q (state_of (step o q)).
Proof.
  unfold same_config. step_paths o q; repeat split; reflexivity.
Qed.

Lemma run_same_config (ops : list (Op Item)) q : same_config q (state_of (run ops q)).
Proof.
  apply (run_invariant (same_config q)).
  - intros o q' (E1 & E2 & E3).
    destruct (step_same_config o q') as (F1 & F2 & F3).
    unfold same_config. rewrite F1, F2, F3. auto.
  - repeat split; reflexivity.
Qed.

Lemma step_counters_consistent (o : Op Item) q :
  counters_consistent q -> counters_consistent (state_of (step o q)).
Proof.
  unfold counters_consistent. intros [Hn Hs].
  step_paths o q; split; intros; try discriminate; try congruence;
    try reflexivity; auto;
    try (apply Hs; discriminate); try (apply Hn; reflexivity).
Qed.


Lemma new_counters_consistent maxSize D L :
  counters_consistent (ReorderQueue_new (Item := Item) maxSize D L).
Proof.
  split; intros; reflexivity.
Qed.

(** ** The counters and the held slot *)


(** ** Bounded reordering *)

Lemma wrap32_small z : 0 <= z < UINT32_MOD -> wrap32 z = z.
Proof.
  intros Hz. unfold wrap32. apply Z.mod_small. exact Hz.
Qed.

Lemma scan_app L D s (es1 es2 : list (Effect Item)) :
  scan L D s (es1 ++ es2) =
  match scan L D s es1 with
  | Some s' => scan L D s' es2
  | None => None
  end.
Proof.
  revert s. induction es1 as [|e es1 IH]; intros s; simpl.
  - reflexivity.
  - destruct (scan_step L D s e); [apply IH | reflexivity].
Qed.

(** One operation, read by the reader of traces: it does not fail, it ends
    where the new state says, and the counters stay within their bounds. *)
Lemma step_scan (o : Op Item) q :
  is_uint32 (m_inSequenceLength q) ->
  1 <= m_reorderDepth q < UINT32_MOD ->
  counters_consistent q ->
  counters_bounded q ->
  scan (m_inSequenceLength q) (m_reorderDepth q) (scan_state q)
    (effects_of (step o q))
  = Some (scan_state (state_of (step o q)))
  /\ counters_bounded (state_of (step o q)).
Proof.
  unfold is_uint32, counters_consistent, counters_bounded, scan_state.
  intros HL HD [Hn Hs] [Hbs Hbh].
  step_paths o q;
    cbn [scan scan_step fst snd];
    try rewrite Hheld in *;
    try (split; [reflexivity | split; assumption]).
  all: try (assert (Hz : m_inSequenceCount q = 0) by (apply Hs; discriminate)).
  all: try (assert (Hz : m_holdCount q = 0) by (apply Hn; reflexivity)).
  all: cbn [scan scan_step fst snd].
  all: try (split; [reflexivity | lia]).
  all: try (change (wrap32 (0 + 1)) with 1; change (0 + 1) with 1).
  all: try (destruct (Z.leb_spec 1 (m_reorderDepth q)); [|lia];
            split; [reflexivity | lia]).
  - rewrite (wrap32_small (m_holdCount q + 1)) by lia.
    destruct (Z.leb_spec (m_holdCount q + 1) (m_reorderDepth q)); [|lia].
    split; [reflexivity | lia].
  - rewrite (wrap32_small (m_inSequenceCount q + 1)) by lia.
    destruct (Z.leb_spec (m_inSequenceCount q + 1) (m_inSequenceLength q)); [|lia].
    split; [reflexivity | lia].
Qed.

Lemma run_scan (ops : list (Op Item)) :
  forall q,
  is_uint32 (m_inSequenceLength q) ->
  1 <= m_reorderDepth q < UINT32_MOD ->
  counters_consistent q ->
  counters_bounded q ->
  scan (m_inSequenceLength q) (m_reorderDepth q) (scan_state q)
    (effects_of (run ops q))
  = Some (scan_state (state_of (run ops q)))
  /\ counters_bounded (state_of (run ops q)).
Proof.
  induction ops as [|o ops IH]; intros q HL HD Hc Hb.
  - split; [reflexivity | exact Hb].
  - destruct (step_scan o q HL HD Hc Hb) as [Hscan Hb1].
    destruct (step_same_config o q) as (_ & ED & EL).
    pose proof (step_counters_consistent o q Hc) as Hc1.
    rewrite run_cons. cbn [ret_of state_of effects_of fst snd].
    rewrite scan_app. fold (effects_of (step o q)). rewrite Hscan.
    fold (state_of (step o q)).
    rewrite <- ED, <- EL. apply IH.
    + rewrite EL. exact HL.
    + rewrite ED. exact HD.
    + exact Hc1.
    + exact Hb1.
Qed.

Lemma released_of_app (es es' : list (Effect Item)) :
  released_of (es ++ es') = released_of es ++ released_of es'.
Proof.
  induction es as [|e es IH]; [reflexivity|].
  destruct e as [item|[| |n|b0| |p|p|p|p|p]]; simpl; rewrite ?IH; reflexivity.
Qed.

Lemma dequeued_items_cons (r : Result Item) rs :
  dequeued_items (r :: rs) = dequeued_items [r] ++ dequeued_items rs.
Proof.
  destruct r as [b0|[p|]|p]; reflexivity.
Qed.

(** The pop and release messages of one operation name exactly the item the
    call returned, if it is a [Dequeue] that returned one. *)
Lemma step_released (o : Op Item) q :
  released_of (effects_of (step o q)) = dequeued_items [ret_of (step o q)].
Proof.
  step_paths o q; reflexivity.
Qed.

Lemma run_released (ops : list (Op Item)) :
  forall q,
  released_of (effects_of (run ops q)) = dequeued_items (ret_of (run ops q)).
Proof.
  induction ops as [|o ops IH]; intros q.
  - reflexivity.
  - rewrite run_cons. cbn [ret_of effects_of fst snd].
    fold (effects_of (step o q)). fold (ret_of (step o q)).
    fold (state_of (step o q)).
    rewrite released_of_app, dequeued_items_cons, step_released.
    f_equal. apply IH.
Qed.

(** C6 (as amended).  On a queue whose reorderDepth is at least 1 (the
    attributes being 32-bit values), along every run from a fresh queue: the
    trace of hold, pop and release events never shows more than
    inSequenceLength consecutive in-order releases, that is pops made while
    no earlier item is held back, before the next hold event; nor more than
    reorderDepth pops past an item while it is held.  The trace is tied to
    the run: the items it shows popped or released are exactly the items the
    [Dequeue] calls returned, in order, and the reader of the trace ends
    where the queue is (an item held or not, and the count of pops equal to
    holdCount, respectively inSequenceCount).  The two counters of the queue
    never exceed these bounds. *)
Theorem C6_bounded_reordering maxSize D L (ops : list (Op Item)) :
  is_uint32 L ->
  1 <= D < UINT32_MOD ->
  bounded_reordering L D (effects_of (run ops (ReorderQueue_new maxSize D L)))
  /\ scan L D (false, 0) (effects_of (run ops (ReorderQueue_new maxSize D L)))
     = Some (scan_state (state_of (run ops (ReorderQueue_new maxSize D L))))
  /\ released_of (effects_of (run ops (ReorderQueue_new maxSize D L)))
     = dequeued_items (ret_of (run ops (ReorderQueue_new maxSize D L)))
  /\ counters_bounded (state_of (run ops (ReorderQueue_new maxSize D L))).
Proof.
  intros HL HD.
  assert (Hb0 : counters_bounded (ReorderQueue_new (Item := Item) maxSize D L)).
  { unfold counters_bounded, is_uint32 in *. simpl. lia. }
  destruct (run_scan ops (ReorderQueue_new maxSize D L) HL HD
              (new_counters_consistent maxSize D L) Hb0) as [Hscan Hb].
  simpl in Hscan.
  change (scan_state (ReorderQueue_new maxSize D L)) with (false, 0) in Hscan.
  split; [|split; [exact Hscan | split; [apply run_released | exact Hb]]].
  unfold bounded_reordering. rewrite Hscan. discriminate.
Qed.

(** ** Byte accounting *)

Lemma wrap32_add_l a b : wrap32 (wrap32 a + b) = wrap32 (a + b).
Proof.
  unfold wrap32. apply Z.add_mod_idemp_l. unfold UINT32_MOD. lia.
Qed.

Lemma wrap32_sub_l a b : wrap32 (wrap32 a - b) = wrap32 (a - b).
Proof.
  unfold wrap32. apply Zminus_mod_idemp_l.
Qed.

Lemma bytes_of_app (ps ps' : list Item) :
  bytes_of (ps ++ ps') = bytes_of ps + bytes_of ps'.
Proof.
  induction ps as [|p ps IH]; simpl; [reflexivity | rewrite IH; lia].
Qed.

(** One operation keeps the byte counter equal, as a 32-bit number, to what
    the Store and the held slot contain. *)
Lemma step_bytes (o : Op Item) q :
  1 <= m_inSequenceLength q ->
  counters_consistent q ->
  m_bytesInQueue q
  = wrap32 (bytes_of (m_packets q) + held_bytes (m_held q)) ->
  m_bytesInQueue (state_of (step o q))
  = wrap32 (bytes_of (m_packets (state_of (step o q)))
            + held_bytes (m_held (state_of (step o q)))).
Proof.
  unfold counters_consistent. intros HL [Hn Hs] Hb.
  step_paths o q;
    try rewrite Hheld in *; try rewrite Hpk in *;
    cbn [bytes_of held_bytes] in *;
    rewrite ?Hb, ?bytes_of_app, ?wrap32_add_l, ?wrap32_sub_l;
    cbn [bytes_of held_bytes];
    try (f_equal; lia).
  all: assert (Hz : m_inSequenceCount q = 0) by (apply Hs; discriminate); lia.
Qed.

Lemma run_bytes (ops : list (Op Item)) :
  forall q,
  1 <= m_inSequenceLength q ->
  counters_consistent q ->
  m_bytesInQueue q
  = wrap32 (bytes_of (m_packets q) + held_bytes (m_held q)) ->
  m_bytesInQueue (state_of (run ops q))
  = wrap32 (bytes_of (m_packets (state_of (run ops q)))
            + held_bytes (m_held (state_of (run ops q)))).
Proof.
  induction ops as [|o ops IH]; intros q HL Hc Hb.
  - exact Hb.
  - pose proof (step_bytes o q HL Hc Hb) as Hb1.
    destruct (step_same_config o q) as (_ & _ & EL).
    pose proof (step_counters_consistent o q Hc) as Hc1.
    rewrite <- EL in HL.
    specialize (IH _ HL Hc1 Hb1).
    rewrite run_cons. cbn [ret_of state_of effects_of fst snd].
    fold (state_of (step o q)). exact IH.
Qed.

(** C4 (as amended).  After any sequence of Enqueue, Dequeue and Remove
    operations on a fresh queue with inSequenceLength at least 1, the byte
    counter equals, modulo 2^32, the sum of the sizes of the items in the
    Store plus the size of the held item, if any. *)
Theorem C4_byte_accounting maxSize D L (ops : list (Op Item)) :
  1 <= L ->
  m_bytesInQueue (state_of (run ops (ReorderQueue_new maxSize D L)))
  = wrap32
      (bytes_of (m_packets (state_of (run ops (ReorderQueue_new maxSize D L))))
       + held_bytes (m_held (state_of (run ops (ReorderQueue_new maxSize D L))))).
Proof.
  intros HL.
  exact (run_bytes ops (ReorderQueue_new maxSize D L) HL
           (new_counters_consistent maxSize D L) eq_refl).
Qed.

(** ** A held item and an empty Store *)

(** With the Store empty (and, as always, nothing in the container of the
    base class), [Dequeue] and [Remove] return nothing and change nothing,
    whatever the held slot contains. *)
Lemma empty_store_stuck (ks : list bool) q :
  m_packets q = [] ->
  Queue_container q = [] ->
  ret_of (run (consumer_calls ks) q)
  = map (fun k : bool => if k then RDequeue None else RRemove None) ks
  /\ state_of (run (consumer_calls ks) q) = q.
Proof.
  intros Hq Hbase. induction ks as [|k ks [IHr IHs]].
  - split; reflexivity.
  - assert (Hstep : step (if k then OpDequeue else OpRemove) q
                    = (if k then RDequeue None else RRemove None, q,
                       effects_of (step (if k then OpDequeue else OpRemove) q))).
    { destruct k; unfold step, Dequeue, Remove, DoRemove_begin;
        rewrite ?Hq, ?Hbase; reflexivity. }
    unfold consumer_calls in *. rewrite map_cons, run_cons, Hstep.
    cbn [ret_of state_of effects_of fst snd map].
    fold (ret_of (run (map (fun k : bool => if k then OpDequeue else OpRemove) ks) q)).
    fold (state_of (run (map (fun k : bool => if k then OpDequeue else OpRemove) ks) q)).
    rewrite IHr, IHs. split; reflexivity.
Qed.

(** C3 (the code at the failing input).  With the default configuration,
    after a, b, c, d, e, f are enqueued and five [Dequeue] calls made, the
    Store is empty while d sits in the held slot; [Dequeue] then finds the
    Store empty and returns no item, with d still held. *)
Theorem C3_held_with_empty_store (a b c d e f : Item) :
  let q := state_of (run (scenario a b c d e f 5) default_queue) in
  m_packets q = []
  /\ m_held q = Some d
  /\ ret_of (Dequeue q) = None
  /\ m_held (state_of (Dequeue q)) = Some d.
Proof.
  repeat split; reflexivity.
Qed.

(** C2 (the code at the failing input).  With the default configuration,
    after a, b, c, d, e, f are enqueued (all accepted), five [Dequeue] calls
    return a, b, c, e, f; from then on every [Dequeue] and every [Remove]
    call, in any number and order, returns no item, and d stays in the held
    slot: d is never returned. *)
Theorem C2_held_item_stranded (a b c d e f : Item) (ks : list bool) :
  let q := state_of (run (scenario a b c d e f 5) default_queue) in
  dequeued (ret_of (run (scenario a b c d e f 5) default_queue))
    = [Some a; Some b; Some c; Some e; Some f]
  /\ ret_of (run (consumer_calls ks) q)
     = map (fun k : bool => if k then RDequeue None else RRemove None) ks
  /\ m_held (state_of (run (consumer_calls ks) q)) = Some d.
Proof.
  intros q.
  destruct (empty_store_stuck ks q eq_refl eq_refl) as [Hr Hs].
  split; [reflexivity|]. split; [exact Hr|]. rewrite Hs. reflexivity.
Qed.

(** ** The container of the base class *)

Lemma step_container_empty (o : Op Item) q :
  Queue_container q = [] -> Queue_container (state_of (step o q)) = [].
Proof.
  intros Hb. step_paths o q; try assumption; discriminate.
Qed.

Lemma run_container_empty (ops : list (Op Item)) q :
  Queue_container q = [] -> Queue_container (state_of (run ops q)) = [].
Proof.
  apply (run_invariant (fun q => Queue_container q = [])).
  exact step_container_empty.
Qed.

(** ** Conservation of items *)

(** One operation neither duplicates nor loses an item: what was in the
    queue plus what the call accepted is what the call returned plus what is
    in the queue afterwards. *)
Lemma step_conservation (o : Op Item) q :
  1 <= m_inSequenceLength q ->
  counters_consistent q ->
  Queue_container q = [] ->
  Permutation
    (m_packets q ++ held_items (m_held q) ++ accepted [o] [ret_of (step o q)])
    (returned [ret_of (step o q)]
     ++ m_packets (state_of (step o q))
     ++ held_items (m_held (state_of (step o q)))).
Proof.
  unfold counters_consistent. intros HL [Hn Hs] Hb.
  step_paths o q;
    try discriminate;
    try rewrite Hheld in *; try rewrite Hpk in *;
    cbn [accepted returned held_items app];
    rewrite ?app_nil_r;
    try reflexivity.
  - rewrite <- app_assoc. apply Permutation_app_head, Permutation_app_comm.
  - apply Permutation_sym, (Permutation_cons_append [front] i).
  - apply Permutation_sym, (Permutation_cons_append (front :: i0 :: rest) i).
  - apply Permutation_sym, (Permutation_cons_append (front :: rest) i).
  - assert (Hz : m_inSequenceCount q = 0) by (apply Hs; discriminate). lia.
  - assert (Hz : m_inSequenceCount q = 0) by (apply Hs; discriminate). lia.
  - apply (Permutation_cons_append (i :: rest) front).
Qed.

Lemma accepted_cons (o : Op Item) (r : Result Item) ops rs :
  accepted (o :: ops) (r :: rs) = accepted [o] [r] ++ accepted ops rs.
Proof.
  destruct o as [item| |]; destruct r as [[|]|p|p]; reflexivity.
Qed.

Lemma returned_cons (r : Result Item) rs :
  returned (r :: rs) = returned [r] ++ returned rs.
Proof.
  destruct r as [b|[p|]|[p|]]; reflexivity.
Qed.

Lemma run_conservation (ops : list (Op Item)) :
  forall q,
  1 <= m_inSequenceLength q ->
  counters_consistent q ->
  Queue_container q = [] ->
  Permutation
    (m_packets q ++ held_items (m_held q) ++ accepted ops (ret_of (run ops q)))
    (returned (ret_of (run ops q))
     ++ m_packets (state_of (run ops q))
     ++ held_items (m_held (state_of (run ops q)))).
Proof.
  induction ops as [|o ops IH]; intros q HL Hc Hb.
  - cbn [run ret_of state_of fst snd accepted returned app].
    rewrite app_nil_r. reflexivity.
  - pose proof (step_conservation o q HL Hc Hb) as Hstep.
    destruct (step_same_config o q) as (_ & _ & EL).
    pose proof (step_counters_consistent o q Hc) as Hc1.
    pose proof (step_container_empty o q Hb) as Hb1.
    rewrite <- EL in HL. specialize (IH _ HL Hc1 Hb1).
    rewrite run_cons. cbn [ret_of state_of effects_of fst snd].
    fold (state_of (step o q)). fold (ret_of (step o q)).
    rewrite accepted_cons, returned_cons.
    set (q1 := state_of (step o q)) in *.
    set (rs := ret_of (run ops q1)) in *.
    rewrite !app_assoc in *.
    rewrite Hstep. rewrite <- !app_assoc.
    apply Permutation_app_head. rewrite !app_assoc. exact IH.
Qed.

(** Along every run from a fresh queue with inSequenceLength at least 1, the
    items accepted so far are, counted with multiplicity, the items returned
    so far by [Dequeue] or [Remove] plus those still in the Store or in the
    held slot: nothing accepted is duplicated, and nothing leaves the queue
    but through a return value. *)
Theorem conservation maxSize D L (ops : list (Op Item)) :
  1 <= L ->
  Permutation
    (accepted ops (ret_of (run ops (ReorderQueue_new maxSize D L))))
    (returned (ret_of (run ops (ReorderQueue_new maxSize D L)))
     ++ m_packets (state_of (run ops (ReorderQueue_new maxSize D L)))
     ++ held_items (m_held (state_of (run ops (ReorderQueue_new maxSize D L))))).
Proof.
  intros HL.
  exact (run_conservation ops (ReorderQueue_new maxSize D L) HL
           (new_counters_consistent maxSize D L) eq_refl).
Qed.

(** * Further properties of the operations *)

(** ** Which path a call of [Dequeue] takes *)

Lemma Dequeue_release q (h front : Item) (rest : list Item) :
  m_packets q = front :: rest ->
  m_held q = Some h ->
  m_holdCount q = m_reorderDepth q ->
  Dequeue q = release_held h q.
Proof.
  intros Hpk Hh Hc. unfold Dequeue. rewrite Hpk, Hh, Hc, Z.eqb_refl. reflexivity.
Qed.

Lemma Dequeue_pop q (front : Item) (rest : list Item) :
  m_packets q = front :: rest ->
  (m_held q = None \/ m_holdCount q <> m_reorderDepth q) ->
  m_inSequenceCount q <> m_inSequenceLength q ->
  Dequeue q = pop_front front rest q.
Proof.
  intros Hpk Hbr Hseq. unfold Dequeue, Dequeue_else. rewrite Hpk.
  destruct (Z.eqb_spec (m_inSequenceCount q) (m_inSequenceLength q)) as [E|_];
    [contradiction|].
  destruct (m_held q) as [h|]; [|reflexivity].
  destruct (Z.eqb_spec (m_holdCount q) (m_reorderDepth q)) as [E|_]; [|reflexivity].
  destruct Hbr; [discriminate | contradiction].
Qed.

Lemma Dequeue_hold_pop q (front next : Item) (rest : list Item) :
  m_packets q = front :: next :: rest ->
  (m_held q = None \/ m_holdCount q <> m_reorderDepth q) ->
  m_inSequenceCount q = m_inSequenceLength q ->
  state_of (Dequeue q)
  = set_holdCount (wrap32 (0 + 1))
      (set_bytesInQueue (wrap32 (m_bytesInQueue q - GetSize next))
         (set_packets rest (hold_front front (next :: rest) q)))
  /\ ret_of (Dequeue q) = Some next.
Proof.
  intros Hpk Hbr Hseq. unfold Dequeue, Dequeue_else. rewrite Hpk, Hseq, Z.eqb_refl.
  destruct (m_held q) as [h|]; [|split; reflexivity].
  destruct (Z.eqb_spec (m_holdCount q) (m_reorderDepth q)) as [E|_];
    [|split; reflexivity].
  destruct Hbr; [discriminate | contradiction].
Qed.

(** ** Single calls *)

(** [Dequeue] returns no item exactly when the Store is empty, whatever the
    held slot contains, and then it leaves the queue as it was. *)
Theorem Dequeue_null_iff_empty q :
  (ret_of (Dequeue q) = None <-> m_packets q = [])
  /\ (ret_of (Dequeue q) = None -> state_of (Dequeue q) = q).
Proof.
  split; [split|]; dequeue_paths q; intros; try discriminate; reflexivity.
Qed.

(** The item [Dequeue] returns is the held item (when holdCount has reached
    reorderDepth), the head of the Store, or, when the call holds the head,
    the item right behind it. *)
Theorem Dequeue_returns_held_head_or_second q p :
  ret_of (Dequeue q) = Some p ->
  (m_held q = Some p /\ m_holdCount q = m_reorderDepth q)
  \/ hd_error (m_packets q) = Some p
  \/ (m_inSequenceCount q = m_inSequenceLength q
      /\ nth_error (m_packets q) 1 = Some p).
Proof.
  dequeue_paths q; intros Hret; try discriminate;
    injection Hret as <-; auto.
Qed.

(** Enqueue, then Dequeue, on an empty Store: the item accepted is the one
    returned, unless an item is held with holdCount at reorderDepth, in which
    case the held item is returned instead. *)
Theorem Enqueue_then_Dequeue_empty_store item q :
  m_packets q = [] ->
  ret_of (Enqueue item q) = true ->
  ret_of (Dequeue (state_of (Enqueue item q)))
  = Some (match m_held q with
          | Some h => if m_holdCount q =? m_reorderDepth q then h else item
          | None => item
          end)
  /\ m_packets (state_of (Dequeue (state_of (Enqueue item q))))
     = match m_held q with
       | Some h => if m_holdCount q =? m_reorderDepth q then [item] else []
       | None => []
       end.
Proof.
  intros Hpk. unfold Enqueue. rewrite Hpk.
  destruct (QueueSizeUnit_eqb (GetUnit (m_maxSize q)) PACKETS
            && (Z.of_nat (length (@nil Item)) >=? GetValue (m_maxSize q)));
    [discriminate|].
  destruct (QueueSizeUnit_eqb (GetUnit (m_maxSize q)) BYTES
            && (wrap32 (m_bytesInQueue q + GetSize item) >=? GetValue (m_maxSize q)));
    [discriminate|].
  intros _.
  cbn [ret_of state_of fst snd].
  unfold Dequeue, Dequeue_else, release_held, release_anyway, pop_front, hold_front.
  cbn [m_packets m_held m_holdCount m_reorderDepth m_inSequenceCount
       m_inSequenceLength set_packets set_bytesInQueue app].
  rewrite Hpk. cbn [app].
  destruct (m_held q) as [h|];
    [destruct (m_holdCount q =? m_reorderDepth q)|];
    try (split; reflexivity);
    destruct (m_inSequenceCount q =? m_inSequenceLength q); split; reflexivity.
Qed.

(** ** The phases of a reordering cycle *)

Lemma run_Dequeue_cons (n : nat) q :
  dequeued (ret_of (run (repeat OpDequeue (S n)) q))
  = ret_of (Dequeue q)
    :: dequeued (ret_of (run (repeat OpDequeue n) (state_of (Dequeue q))))
  /\ state_of (run (repeat OpDequeue (S n)) q)
     = state_of (run (repeat OpDequeue n) (state_of (Dequeue q))).
Proof.
  cbn [repeat]. rewrite run_cons. unfold step.
  destruct (Dequeue q) as [[r q1] es]. split; reflexivity.
Qed.

(** While nothing is held and the hold trigger is not reached, [Dequeue] is
    plain FIFO: [n] calls return the first [n] items of the Store in order,
    provided inSequenceCount + n stays within inSequenceLength. *)
Lemma in_sequence_run (n : nat) :
  forall q,
  m_held q = None ->
  0 <= m_inSequenceCount q ->
  m_inSequenceCount q + Z.of_nat n <= m_inSequenceLength q ->
  m_inSequenceLength q < UINT32_MOD ->
  (n <= length (m_packets q))%nat ->
  dequeued (ret_of (run (repeat OpDequeue n) q))
  = map Some (firstn n (m_packets q))
  /\ m_packets (state_of (run (repeat OpDequeue n) q)) = skipn n (m_packets q)
  /\ m_held (state_of (run (repeat OpDequeue n) q)) = None
  /\ m_inSequenceCount (state_of (run (repeat OpDequeue n) q))
     = m_inSequenceCount q + Z.of_nat n.
Proof.
  induction n as [|n IH]; intros q Hh H0 Hn HL Hlen.
  - cbn. repeat split; try assumption; lia.
  - destruct (m_packets q) as [|front rest] eqn:Hpk; [simpl in Hlen; lia|].
    destruct (run_Dequeue_cons n q) as [Er Es]. rewrite Er, Es.
    rewrite (Dequeue_pop q front rest Hpk (or_introl Hh)) by lia.
    unfold pop_front.
    cbn [ret_of state_of fst snd m_held m_inSequenceCount set_packets
         set_bytesInQueue].
    rewrite Hh.
    rewrite (wrap32_small (m_inSequenceCount q + 1)) by lia.
    set (q1 := set_inSequenceCount _ _).
    destruct (IH q1) as (E1 & E2 & E3 & E4);
      subst q1; cbn [m_held m_inSequenceCount m_inSequenceLength m_packets
                     set_inSequenceCount set_packets set_bytesInQueue];
      try assumption; try lia.
    + simpl in Hlen. lia.
    + rewrite E1, E2, E3, E4.
      cbn [m_held m_inSequenceCount m_inSequenceLength m_packets
           set_inSequenceCount set_packets set_bytesInQueue firstn skipn map].
      repeat split; try reflexivity. lia.
Qed.

(** A held item is released once reorderDepth items have passed it: with
    [n] pops still to go and more than [n] items in the Store, [n] calls
    return the first [n] items of the Store and the next call returns the
    held item. *)
Lemma held_release_run (n : nat) :
  forall q h,
  m_held q = Some h ->
  m_inSequenceCount q <> m_inSequenceLength q ->
  0 <= m_holdCount q ->
  m_holdCount q + Z.of_nat n = m_reorderDepth q ->
  m_reorderDepth q < UINT32_MOD ->
  (n < length (m_packets q))%nat ->
  dequeued (ret_of (run (repeat OpDequeue (S n)) q))
  = map Some (firstn n (m_packets q)) ++ [Some h]
  /\ m_packets (state_of (run (repeat OpDequeue (S n)) q)) = skipn n (m_packets q)
  /\ m_held (state_of (run (repeat OpDequeue (S n)) q)) = None
  /\ m_holdCount (state_of (run (repeat OpDequeue (S n)) q)) = 0
  /\ m_inSequenceCount (state_of (run (repeat OpDequeue (S n)) q)) = 0.
Proof.
  induction n as [|n IH]; intros q h Hh Hseq H0 Hn HD Hlen;
    destruct (m_packets q) as [|front rest] eqn:Hpk; try (simpl in Hlen; lia).
  - destruct (run_Dequeue_cons 0 q) as [Er Es]. rewrite Er, Es.
    rewrite (Dequeue_release q h front rest Hpk Hh) by lia.
    unfold release_held. cbn. rewrite Hpk. repeat split; reflexivity.
  - destruct (run_Dequeue_cons (S n) q) as [Er Es]. rewrite Er, Es.
    assert (Hne : m_holdCount q <> m_reorderDepth q) by lia.
    rewrite (Dequeue_pop q front rest Hpk (or_intror Hne) Hseq).
    unfold pop_front.
    cbn [ret_of state_of fst snd m_held m_holdCount set_packets
         set_bytesInQueue].
    rewrite Hh.
    rewrite (wrap32_small (m_holdCount q + 1)) by lia.
    set (q1 := set_holdCount _ _).
    destruct (IH q1 h) as (E1 & E2 & E3 & E4 & E5);
      subst q1; cbn [m_held m_holdCount m_reorderDepth m_inSequenceCount
                     m_inSequenceLength m_packets set_holdCount set_packets
                     set_bytesInQueue];
      try assumption; try lia.
    + simpl in Hlen. lia.
    + rewrite E1, E2, E3, E4, E5.
      cbn [m_held m_holdCount m_reorderDepth m_inSequenceCount
           m_inSequenceLength m_packets set_holdCount set_packets
           set_bytesInQueue firstn skipn map app].
      repeat split; reflexivity.
Qed.

(** A held item waits for exactly the pops that bring holdCount to
    reorderDepth, and needs one more item in the Store to be released: with
    holdCount + n = reorderDepth and more than [n] items in the Store,
    [n + 1] calls of [Dequeue] return the first [n] items of the Store and
    then the held item; the held slot is empty and both counters are 0
    afterwards. *)
Theorem held_released_after_depth (n : nat) q h :
  m_held q = Some h ->
  m_inSequenceCount q <> m_inSequenceLength q ->
  0 <= m_holdCount q ->
  m_holdCount q + Z.of_nat n = m_reorderDepth q ->
  m_reorderDepth q < UINT32_MOD ->
  (n < length (m_packets q))%nat ->
  dequeued (ret_of (run (repeat OpDequeue (S n)) q))
  = map Some (firstn n (m_packets q)) ++ [Some h]
  /\ m_packets (state_of (run (repeat OpDequeue (S n)) q)) = skipn n (m_packets q)
  /\ m_held (state_of (run (repeat OpDequeue (S n)) q)) = None
  /\ m_holdCount (state_of (run (repeat OpDequeue (S n)) q)) = 0
  /\ m_inSequenceCount (state_of (run (repeat OpDequeue (S n)) q)) = 0.
Proof.
  apply held_release_run.
Qed.

(** The call that holds the head and the calls up to its release. *)
Lemma hold_displace_run (d : nat) q (x : Item) (ys : list Item) :
  m_packets q = x :: ys ->
  m_held q = None ->
  m_inSequenceCount q = m_inSequenceLength q ->
  1 <= m_inSequenceLength q ->
  m_reorderDepth q = Z.of_nat (S d) ->
  m_reorderDepth q < UINT32_MOD ->
  (S d < length ys)%nat ->
  dequeued (ret_of (run (repeat OpDequeue (S (S d))) q))
  = map Some (firstn (S d) ys) ++ [Some x]
  /\ m_packets (state_of (run (repeat OpDequeue (S (S d))) q)) = skipn (S d) ys
  /\ m_held (state_of (run (repeat OpDequeue (S (S d))) q)) = None.
Proof.
  intros Hpk Hh Hseq HL HD HDm Hlen.
  destruct ys as [|y ys]; [simpl in Hlen; lia|].
  destruct (run_Dequeue_cons (S d) q) as [Er Es]. rewrite Er, Es.
  destruct (Dequeue_hold_pop q x y ys Hpk (or_introl Hh) Hseq) as [Hst Hret].
  rewrite Hst, Hret.
  change (wrap32 (0 + 1)) with 1.
  set (q1 := set_holdCount 1 _).
  destruct (held_release_run d q1 x) as (E1 & E2 & E3 & _);
    subst q1; unfold hold_front;
    cbn [m_held m_holdCount m_reorderDepth m_inSequenceCount
         m_inSequenceLength m_packets set_holdCount set_packets
         set_bytesInQueue set_held set_inSequenceCount];
    try reflexivity; try lia.
  - simpl in Hlen. lia.
  - unfold hold_front in *.
    cbn [m_held m_holdCount m_reorderDepth m_inSequenceCount
         m_inSequenceLength m_packets set_holdCount set_packets
         set_bytesInQueue set_held set_inSequenceCount] in *.
    rewrite E1, E2, E3. repeat split; reflexivity.
Qed.

(** One reordering event: when the hold trigger is reached with nothing
    held, the head x of the Store is overtaken by exactly reorderDepth items.
    With reorderDepth = d + 1 and more than d + 1 items behind x, the next
    d + 2 calls of [Dequeue] return the d + 1 items behind x, in order, and
    then x. *)
Theorem hold_displaces_by_depth (d : nat) q (x : Item) (ys : list Item) :
  m_packets q = x :: ys ->
  m_held q = None ->
  m_inSequenceCount q = m_inSequenceLength q ->
  1 <= m_inSequenceLength q ->
  m_reorderDepth q = Z.of_nat (S d) ->
  m_reorderDepth q < UINT32_MOD ->
  (S d < length ys)%nat ->
  dequeued (ret_of (run (repeat OpDequeue (S (S d))) q))
  = map Some (firstn (S d) ys) ++ [Some x]
  /\ m_packets (state_of (run (repeat OpDequeue (S (S d))) q)) = skipn (S d) ys
  /\ m_held (state_of (run (repeat OpDequeue (S (S d))) q)) = None.
Proof.
  apply hold_displace_run.
Qed.

(** The in-sequence phase is FIFO: with nothing held and
    inSequenceCount + n within inSequenceLength, [n] calls of [Dequeue] on a
    Store of at least [n] items return its first [n] items in order and add
    [n] to inSequenceCount. *)
Theorem in_sequence_fifo (n : nat) q :
  m_held q = None ->
  0 <= m_inSequenceCount q ->
  m_inSequenceCount q + Z.of_nat n <= m_inSequenceLength q ->
  m_inSequenceLength q < UINT32_MOD ->
  (n <= length (m_packets q))%nat ->
  dequeued (ret_of (run (repeat OpDequeue n) q))
  = map Some (firstn n (m_packets q))
  /\ m_packets (state_of (run (repeat OpDequeue n) q)) = skipn n (m_packets q)
  /\ m_held (state_of (run (repeat OpDequeue n) q)) = None
  /\ m_inSequenceCount (state_of (run (repeat OpDequeue n) q))
     = m_inSequenceCount q + Z.of_nat n.
Proof.
  apply in_sequence_run.
Qed.

(** ** A held item and a Store that runs short *)

Lemma Dequeue_empty_run (k : nat) q :
  m_packets q = [] ->
  dequeued (ret_of (run (repeat OpDequeue k) q)) = repeat None k
  /\ state_of (run (repeat OpDequeue k) q) = q.
Proof.
  intros Hpk. induction k as [|k [IHr IHs]].
  - split; reflexivity.
  - destruct (run_Dequeue_cons k q) as [Er Es]. rewrite Er, Es.
    assert (Hd : Dequeue q = (None, q, [NS_LOG_LOGIC LogQueueEmpty])).
    { unfold Dequeue. rewrite Hpk. reflexivity. }
    rewrite Hd. cbn [ret_of state_of fst snd repeat].
    rewrite IHr, IHs. split; reflexivity.
Qed.

Lemma held_kept_run (n : nat) :
  forall q h (k : nat),
  length (m_packets q) = n ->
  m_held q = Some h ->
  m_inSequenceCount q <> m_inSequenceLength q ->
  0 <= m_holdCount q ->
  m_holdCount q + Z.of_nat n <= m_reorderDepth q ->
  m_reorderDepth q < UINT32_MOD ->
  dequeued (ret_of (run (repeat OpDequeue (n + k)) q))
  = map Some (m_packets q) ++ repeat None k
  /\ m_packets (state_of (run (repeat OpDequeue (n + k)) q)) = []
  /\ m_held (state_of (run (repeat OpDequeue (n + k)) q)) = Some h.
Proof.
  induction n as [|n IH]; intros q h k Hlen Hh Hseq H0 Hn HD;
    destruct (m_packets q) as [|front rest] eqn:Hpk; try discriminate.
  - destruct (Dequeue_empty_run k q Hpk) as [Er Es].
    cbn [Nat.add map app]. rewrite Er, Es, Hpk. repeat split; assumption.
  - cbn [Nat.add].
    destruct (run_Dequeue_cons (n + k) q) as [Er Es]. rewrite Er, Es.
    assert (Hne : m_holdCount q <> m_reorderDepth q) by lia.
    rewrite (Dequeue_pop q front rest Hpk (or_intror Hne) Hseq).
    unfold pop_front.
    cbn [ret_of state_of fst snd m_held m_holdCount set_packets
         set_bytesInQueue].
    rewrite Hh.
    rewrite (wrap32_small (m_holdCount q + 1)) by lia.
    set (q1 := set_holdCount _ _).
    destruct (IH q1 h k) as (E1 & E2 & E3);
      subst q1; cbn [m_held m_holdCount m_reorderDepth m_inSequenceCount
                     m_inSequenceLength m_packets set_holdCount set_packets
                     set_bytesInQueue];
      try assumption; try lia.
    + simpl in Hlen. lia.
    + rewrite E1, E2, E3.
      cbn [m_packets set_holdCount set_packets set_bytesInQueue map app].
      repeat split; reflexivity.
Qed.

(** A held item is not released while the Store runs short: with an item h
    held, the hold trigger not reached, and no more items in the Store than
    the pops still missing to bring holdCount to reorderDepth, [Dequeue]
    returns the items of the Store in order and then nothing, however many
    more times it is called; h stays in the held slot. *)
Theorem held_kept_when_store_short (k : nat) q h :
  m_held q = Some h ->
  m_inSequenceCount q <> m_inSequenceLength q ->
  0 <= m_holdCount q ->
  m_holdCount q + Z.of_nat (length (m_packets q)) <= m_reorderDepth q ->
  m_reorderDepth q < UINT32_MOD ->
  dequeued (ret_of (run (repeat OpDequeue (length (m_packets q) + k)) q))
  = map Some (m_packets q) ++ repeat None k
  /\ m_packets (state_of (run (repeat OpDequeue (length (m_packets q) + k)) q)) = []
  /\ m_held (state_of (run (repeat OpDequeue (length (m_packets q) + k)) q)) = Some h.
Proof.
  intros Hh Hseq H0 Hn HD.
  apply held_kept_run; try assumption. reflexivity.
Qed.

(** ** Remove along a run *)

(** In every state reached from a fresh queue by Enqueue, Dequeue and Remove
    calls, [Remove] returns no item and changes nothing: it looks into the
    container of the base class, which no operation fills, and never into
    the Store. *)
Theorem Remove_returns_null maxSize D L (ops : list (Op Item)) :
  ret_of (Remove (state_of (run ops (ReorderQueue_new maxSize D L)))) = None
  /\ state_of (Remove (state_of (run ops (ReorderQueue_new maxSize D L))))
     = state_of (run ops (ReorderQueue_new maxSize D L)).
Proof.
  pose proof (run_container_empty ops (ReorderQueue_new maxSize D L) eq_refl) as Hb.
  unfold Remove, DoRemove_begin. rewrite Hb. split; reflexivity.
Qed.

(** ** A whole cycle *)

Lemma firstn_length_app (xs l : list Item) : firstn (length xs) (xs ++ l) = xs.
Proof.
  induction xs as [|x xs IH]; simpl; [destruct l; reflexivity | rewrite IH; reflexivity].
Qed.

Lemma skipn_length_app (xs l : list Item) : skipn (length xs) (xs ++ l) = l.
Proof.
  induction xs as [|x xs IH]; simpl; [reflexivity | exact IH].
Qed.

Lemma dequeued_app (rs rs' : list (Result Item)) :
  dequeued (rs ++ rs') = dequeued rs ++ dequeued rs'.
Proof.
  induction rs as [|r rs IH]; [reflexivity|].
  destruct r; simpl; rewrite IH; reflexivity.
Qed.

(** The first reordering cycle of a queue.  With nothing held, both counters
    at 0, inSequenceLength = length xs >= 1 and reorderDepth = d + 1, a Store
    xs ++ x :: ys with more than d + 1 items in ys is dequeued as: the items
    of xs in order, then the first d + 1 items of ys, then x. *)
Theorem first_reordering_cycle (d : nat) q (xs : list Item) (x : Item) (ys : list Item) :
  m_packets q = xs ++ x :: ys ->
  m_held q = None ->
  m_inSequenceCount q = 0 ->
  m_inSequenceLength q = Z.of_nat (length xs) ->
  1 <= m_inSequenceLength q < UINT32_MOD ->
  m_reorderDepth q = Z.of_nat (S d) ->
  m_reorderDepth q < UINT32_MOD ->
  (S d < length ys)%nat ->
  dequeued (ret_of (run (repeat OpDequeue (length xs + S (S d))) q))
  = map Some xs ++ map Some (firstn (S d) ys) ++ [Some x]
  /\ m_packets (state_of (run (repeat OpDequeue (length xs + S (S d))) q))
     = skipn (S d) ys
  /\ m_held (state_of (run (repeat OpDequeue (length xs + S (S d))) q)) = None.
Proof.
  intros Hpk Hh Hseq HL HLr HD HDm Hlen.
  rewrite repeat_app, run_app. cbn [ret_of state_of fst snd].
  fold (ret_of (run (repeat OpDequeue (length xs)) q)).
  fold (state_of (run (repeat OpDequeue (length xs)) q)).
  destruct (in_sequence_run (length xs) q) as (E1 & E2 & E3 & E4);
    try assumption; try lia.
  { rewrite Hpk, length_app. lia. }
  rewrite Hpk, firstn_length_app in E1. rewrite Hpk, skipn_length_app in E2.
  set (q1 := state_of (run (repeat OpDequeue (length xs)) q)) in *.
  destruct (run_same_config (repeat OpDequeue (length xs)) q) as (_ & ED & EL).
  fold q1 in ED, EL.
  destruct (hold_displace_run d q1 x ys) as (F1 & F2 & F3);
    try assumption; try lia.
  rewrite dequeued_app, E1.
  fold (ret_of (run (repeat OpDequeue (S (S d))) q1)).
  fold (state_of (run (repeat OpDequeue (S (S d))) q1)).
  rewrite F1, F2, F3. repeat split; reflexivity.
Qed.

(** ** Capacity *)

Lemma bytes_of_nonneg (ps : list Item) :
  Forall (fun p => 0 <= GetSize p) ps -> 0 <= bytes_of ps.
Proof.
  induction 1 as [|p ps Hp _ IH]; simpl; lia.
Qed.

Lemma Dequeue_bytes_exact B q :
  B <= UINT32_MOD ->
  (m_held q <> None -> m_inSequenceCount q <> m_inSequenceLength q) ->
  bytes_exact B q ->
  bytes_exact B (state_of (Dequeue q)).
Proof.
  unfold bytes_exact. intros HB Hseq' (Hb & Hr & Hf & Hh).
  dequeue_paths q;
    cbn [bytes_of held_bytes m_packets m_held m_bytesInQueue set_packets
         set_held set_holdCount set_inSequenceCount set_bytesInQueue] in *;
    rewrite ?Hpk, ?Hheld;
    cbn [bytes_of held_bytes].
  all: try (exfalso; apply Hseq'; [discriminate | assumption]).
  all: repeat match goal with
              | Hf : Forall _ (_ :: _) |- _ =>
                  let Hp := fresh "Hp" in
                  let Hf' := fresh "Hf" in
                  apply Forall_cons_iff in Hf; destruct Hf as [Hp Hf']
              end.
  all: repeat match goal with
              | Hf : Forall _ ?l |- _ =>
                  lazymatch goal with
                  | _ : 0 <= bytes_of l |- _ => fail
                  | _ => pose proof (bytes_of_nonneg l Hf)
                  end
              end.
  all: try (rewrite wrap32_small by lia).
  all: repeat split; try assumption; try lia; try (constructor; assumption).
Qed.

Lemma Enqueue_bytes_exact B item q :
  GetUnit (m_maxSize q) = BYTES ->
  GetValue (m_maxSize q) = B ->
  0 <= GetSize item ->
  GetSize item + B <= UINT32_MOD ->
  bytes_exact B q ->
  bytes_exact B (state_of (Enqueue item q)).
Proof.
  unfold bytes_exact, Enqueue. intros Hu Hv Hs Hfit (Hb & Hr & Hf & Hh).
  rewrite Hu, Hv. cbn [QueueSizeUnit_eqb andb].
  destruct (Z.geb_spec (wrap32 (m_bytesInQueue q + GetSize item)) B) as [Hge|Hlt];
    cbn [state_of fst snd m_packets m_held m_bytesInQueue set_packets
         set_bytesInQueue].
  - repeat split; try assumption; lia.
  - rewrite wrap32_small in * by lia.
    rewrite bytes_of_app. cbn [bytes_of].
    repeat split; try assumption; try lia.
    apply Forall_app. split; [assumption | constructor; [assumption | constructor]].
Qed.

(** In byte mode, when no offered item is so large that the 32-bit sum of
    the admission test could wrap (size + limit <= 2^32), the byte counter
    is exactly the sum of the sizes of the items in the Store and in the
    held slot, and it stays strictly below the limit, along every sequence
    of Enqueue and Dequeue calls on a fresh queue (limit and
    inSequenceLength at least 1). *)
Theorem byte_mode_counter_exact B D L (cs : list (option Item)) :
  1 <= B <= UINT32_MOD ->
  1 <= L ->
  Forall (call_fits B) cs ->
  bytes_exact B
    (state_of (run (queue_calls cs) (ReorderQueue_new (mkQueueSize BYTES B) D L))).
Proof.
  intros HB HL Hcs.
  assert (Hgen : forall q,
             GetUnit (m_maxSize q) = BYTES ->
             GetValue (m_maxSize q) = B ->
             1 <= m_inSequenceLength q ->
             counters_consistent q ->
             bytes_exact B q ->
             bytes_exact B (state_of (run (queue_calls cs) q))).
  { induction Hcs as [|c cs Hc _ IH]; intros q Hu Hv HLq Hcc Hbe.
    - exact Hbe.
    - unfold queue_calls. cbn [map]. fold (queue_calls cs).
      rewrite run_cons. cbn [state_of fst snd].
      set (o := match c with Some item => OpEnqueue item | None => OpDequeue end).
      fold (state_of (step o q)).
      destruct (step_same_config o q) as (EM & _ & EL).
      apply IH.
      + rewrite EM. exact Hu.
      + rewrite EM. exact Hv.
      + rewrite EL. exact HLq.
      + apply step_counters_consistent, Hcc.
      + subst o. destruct c as [item|]; unfold step.
        * destruct Hc as [Hs Hfit].
          pose proof (Enqueue_bytes_exact B item q Hu Hv Hs Hfit Hbe) as Hn.
          destruct (Enqueue item q) as [[b q1] es]. exact Hn.
        * assert (Hn : bytes_exact B (state_of (Dequeue q))).
          { apply Dequeue_bytes_exact; [lia | | exact Hbe].
            intros Hne. destruct Hcc as [_ Hz]. rewrite (Hz Hne). lia. }
          destruct (Dequeue q) as [[p q1] es]. exact Hn. }
  apply Hgen; try reflexivity; try assumption.
  - apply new_counters_consistent.
  - unfold bytes_exact. cbn. repeat split; try lia. constructor.
Qed.


Lemma step_store_bound (o : Op Item) q :
  GetUnit (m_maxSize q) = PACKETS ->
  Z.of_nat (length (m_packets q)) <= GetValue (m_maxSize q) ->
  Z.of_nat (length (m_packets (state_of (step o q)))) <= GetValue (m_maxSize q).
Proof.
  intros Hu Hlen. destruct o as [item| |].
  - unfold step, Enqueue. rewrite Hu. cbn [QueueSizeUnit_eqb andb].
    destruct (Z.geb_spec (Z.of_nat (length (m_packets q))) (GetValue (m_maxSize q)));
      cbn [state_of fst snd m_packets set_packets set_bytesInQueue].
    + exact Hlen.
    + rewrite length_app. simpl. lia.
  - unfold step. dequeue_paths q;
      rewrite ?Hpk in *;
      cbn [length m_packets set_packets set_holdCount set_inSequenceCount
           set_bytesInQueue] in *;
      lia.
  - unfold step, Remove, DoRemove_begin.
    destruct (Queue_container q) as [|x rest];
      cbn [state_of fst snd m_packets set_Queue_container]; exact Hlen.
Qed.

(** In element-count mode the Store never holds more than the limit: along
    every sequence of Enqueue and Dequeue calls on a fresh queue the length
    of the Store is at most the limit.  (The held item is not in the Store
    and is not counted by the admission test.) *)
Theorem packet_mode_store_bound Lim D L (cs : list (option Item)) :
  0 <= Lim ->
  Z.of_nat
    (length (m_packets
       (state_of (run (queue_calls cs)
                    (ReorderQueue_new (mkQueueSize PACKETS Lim) D L)))))
  <= Lim.
Proof.
  intros HLim.
  apply (run_invariant
           (fun q => GetUnit (m_maxSize q) = PACKETS
                     /\ GetValue (m_maxSize q) = Lim
                     /\ Z.of_nat (length (m_packets q)) <= Lim)).
  - intros o q (Hu & Hv & Hlen).
    destruct (step_same_config o q) as (EM & _ & _).
    rewrite EM. repeat split; try assumption.
    rewrite <- Hv. apply step_store_bound; [exact Hu | rewrite Hv; exact Hlen].
  - cbn. repeat split. exact HLim.
Qed.

(** ** What the operations never write *)

(** No sequence of Enqueue and Dequeue calls changes the attributes of the
    queue: the size limit, reorderDepth and inSequenceLength are those the
    queue started with. *)
Theorem attributes_unchanged (cs : list (option Item)) q :
  m_maxSize (state_of (run (queue_calls cs) q)) = m_maxSize q
  /\ m_reorderDepth (state_of (run (queue_calls cs) q)) = m_reorderDepth q
  /\ m_inSequenceLength (state_of (run (queue_calls cs) q)) = m_inSequenceLength q.
Proof.
  exact (run_same_config (queue_calls cs) q).
Qed.

(** ** Drop notifications along a run *)

Lemma drops_of_app (es es' : list (Effect Item)) :
  drops_of (es ++ es') = drops_of es ++ drops_of es'.
Proof.
  induction es as [|e es IH]; [reflexivity|].
  destruct e; simpl; rewrite IH; reflexivity.
Qed.

Lemma step_drops (o : Op Item) q :
  drops_of (effects_of (step o q)) = rejected [o] [ret_of (step o q)].
Proof.
  step_paths o q; reflexivity.
Qed.

Lemma rejected_cons (o : Op Item) (r : Result Item) ops rs :
  rejected (o :: ops) (r :: rs) = rejected [o] [r] ++ rejected ops rs.
Proof.
  destruct o as [item| |]; destruct r as [[|]|p|p]; reflexivity.
Qed.

Lemma run_drops (ops : list (Op Item)) :
  forall q,
  drops_of (effects_of (run ops q)) = rejected ops (ret_of (run ops q)).
Proof.
  induction ops as [|o ops IH]; intros q.
  - reflexivity.
  - rewrite run_cons. cbn [ret_of effects_of fst snd].
    fold (effects_of (step o q)). fold (ret_of (step o q)).
    fold (state_of (step o q)).
    rewrite drops_of_app, rejected_cons, step_drops.
    f_equal. apply IH.
Qed.

(** The drop trace of a run is the list of the rejected items: every item
    [Enqueue] rejects is reported once, in the order of the calls, and
    nothing else is ever reported ([Dequeue] and an accepting [Enqueue]
    report nothing). *)
Theorem drops_are_rejections (cs : list (option Item)) q :
  drops_of (effects_of (run (queue_calls cs) q))
  = rejected (queue_calls cs) (ret_of (run (queue_calls cs) q)).
Proof.
  apply run_drops.
Qed.

(** ** Conservation along Enqueue and Dequeue *)

(** Along every sequence of Enqueue and Dequeue calls on a fresh queue with
    inSequenceLength at least 1, the accepted items are, with multiplicity,
    the returned items plus the items in the Store plus the held item:
    [Dequeue] never returns an item twice, never returns one that was not
    accepted, and an accepted item that was not returned is still in the
    Store or in the held slot. *)
Theorem conservation_enqueue_dequeue maxSize D L (cs : list (option Item)) :
  1 <= L ->
  Permutation
    (accepted (queue_calls cs)
       (ret_of (run (queue_calls cs) (ReorderQueue_new maxSize D L))))
    (returned (ret_of (run (queue_calls cs) (ReorderQueue_new maxSize D L)))
     ++ m_packets (state_of (run (queue_calls cs) (ReorderQueue_new maxSize D L)))
     ++ held_items
          (m_held (state_of (run (queue_calls cs) (ReorderQueue_new maxSize D L))))).
Proof.
  intros HL.
  exact (run_conservation (queue_calls cs) (ReorderQueue_new maxSize D L) HL
           (new_counters_consistent maxSize D L) eq_refl).
Qed.

End Properties.

(** * The scenarios on concrete packets *)

(** The reader of traces does reject a trace with too many pops in a row. *)
Example scan_rejects_four_pops :
  scan 3 5 (false, 0)
    (map (fun p : Packet => NS_LOG_LOGIC (LogPopped p)) [pktA; pktB; pktC; pktD])
  = None.
Proof. reflexivity. Qed.

(** With reorderDepth = 0 the bound on pops past a held item does not hold:
    the call that holds pktA already pops pktB past it. *)
Example reorderDepth_zero_not_bounded :
  ~ bounded_reordering 3 0
      (effects_of (run (map OpEnqueue [pktA; pktB; pktC; pktD; pktE]
                        ++ repeat OpDequeue 4)
                     (ReorderQueue_new (mkQueueSize PACKETS 100) 0 3))).
Proof. intros Hb. apply Hb. reflexivity. Qed.

(** One full cycle under the defaults, thirteen packets enqueued and
    dequeued: three in-order pops, packet 4 held, five pops past it, packet 4
    released, three in-order pops, packet 13 held and, being the last,
    released at once. *)
Example default_cycle :
  reorder_events
    (effects_of
       (run (map (fun n => OpEnqueue (pkt (Z.of_nat n))) (seq 1 13)
             ++ repeat OpDequeue 13)
          default_queue))
  = [LogPopped (pkt 1); LogPopped (pkt 2); LogPopped (pkt 3);
     LogHold (pkt 4);
     LogPopped (pkt 5); LogPopped (pkt 6); LogPopped (pkt 7);
     LogPopped (pkt 8); LogPopped (pkt 9);
     LogReleased (pkt 4);
     LogPopped (pkt 10); LogPopped (pkt 11); LogPopped (pkt 12);
     LogHold (pkt 13); LogReleaseAnyway (pkt 13)].
Proof. reflexivity. Qed.

(** The claimed output A, B, D, E, F, C is not what six [Dequeue] calls
    return. *)
Lemma C1_counterexample :
  dequeued (ret_of (run (scenario pktA pktB pktC pktD pktE pktF 6) default_queue))
  <> [Some pktA; Some pktB; Some pktD; Some pktE; Some pktF; Some pktC].
Proof. vm_compute. discriminate. Qed.

(** What the six calls do return. *)
Example scenario_six_calls :
  dequeued (ret_of (run (scenario pktA pktB pktC pktD pktE pktF 6) default_queue))
  = [Some pktA; Some pktB; Some pktC; Some pktE; Some pktF; None].
Proof. reflexivity. Qed.

(** The byte counter differs from the contents of the queue once the sizes
    of the accepted items pass 2^32 (two packets of 2^31 bytes leave it at
    0), and, with inSequenceLength = 0, once a second hold overwrites the
    held item (after A, B, C, D are enqueued and two items dequeued, the
    counter is 200 while only C, of 100 bytes, is left). *)
Lemma C4_counterexample :
  (let q := state_of (run [OpEnqueue pktHalf1; OpEnqueue pktHalf2] default_queue) in
   m_bytesInQueue q <> bytes_of (m_packets q) + held_bytes (m_held q))
  /\ (let q := state_of
                 (run (map OpEnqueue [pktA; pktB; pktC; pktD] ++ repeat OpDequeue 2)
                    (ReorderQueue_new (mkQueueSize PACKETS 100) 5 0)) in
      m_bytesInQueue q <> bytes_of (m_packets q) + held_bytes (m_held q)).
Proof. split; vm_compute; discriminate. Qed.

(** What the second run leaves: nothing in the Store, C held, 200 bytes
    counted. *)
Example inSequenceLength_zero_overwrites_held :
  let q := state_of
             (run (map OpEnqueue [pktA; pktB; pktC; pktD] ++ repeat OpDequeue 2)
                (ReorderQueue_new (mkQueueSize PACKETS 100) 5 0)) in
  m_packets q = [] /\ m_held q = Some pktC /\ m_bytesInQueue q = 200.
Proof. repeat split; reflexivity. Qed.

Lemma C4_witness :
  1 <= 3
  /\ m_bytesInQueue
       (state_of (run (scenario pktA pktB pktC pktD pktE pktF 5 ++ [OpRemove])
                    (ReorderQueue_new (mkQueueSize PACKETS 100) 5 3)))
     = wrap32
         (bytes_of (m_packets
            (state_of (run (scenario pktA pktB pktC pktD pktE pktF 5 ++ [OpRemove])
                         (ReorderQueue_new (mkQueueSize PACKETS 100) 5 3))))
          + held_bytes (m_held
            (state_of (run (scenario pktA pktB pktC pktD pktE pktF 5 ++ [OpRemove])
                         (ReorderQueue_new (mkQueueSize PACKETS 100) 5 3))))).
Proof.
  split; [lia|].
  apply (C4_byte_accounting (Item := Packet) (mkQueueSize PACKETS 100) 5 3). lia.
Defined.

(** In byte mode with limit 100 and 10 bytes queued, an item of 2^32 - 5
    bytes is accepted, the 32-bit sum being 5, although the sum of the byte
    counter and the size is far above the limit. *)
Lemma C5_counterexample :
  let q := state_of (run [OpEnqueue pktSmall]
                       (ReorderQueue_new (mkQueueSize BYTES 100) 5 3)) in
  ~ (ret_of (Enqueue pktHuge q) = true
     <-> m_bytesInQueue q + GetSize pktHuge < GetValue (m_maxSize q)).
Proof.
  intros q [Hacc _]. vm_compute in Hacc. specialize (Hacc eq_refl). discriminate.
Qed.

(** With reorderDepth = 0 (a value the attribute accepts) the bound on the
    pops past a held item fails: after five items are enqueued, the fourth
    call of [Dequeue] holds D and returns E past it; D is still held, one
    pop later, and holdCount is 1. *)
Lemma C6_counterexample :
  let r := run (map OpEnqueue [pktA; pktB; pktC; pktD; pktE] ++ repeat OpDequeue 4)
             (ReorderQueue_new (mkQueueSize PACKETS 100) 0 3) in
  reorder_events (effects_of r)
  = [LogPopped pktA; LogPopped pktB; LogPopped pktC; LogHold pktD; LogPopped pktE]
  /\ m_held (state_of r) = Some pktD
  /\ ~ bounded_reordering 3 0 (effects_of r)
  /\ ~ counters_bounded (state_of r).
Proof.
  intros r. split; [reflexivity|]. split; [reflexivity|]. split.
  - intros Hb. apply Hb. reflexivity.
  - intros [_ [_ Hh]]. vm_compute in Hh. apply Hh. reflexivity.
Qed.

Lemma C6_witness :
  is_uint32 3
  /\ 1 <= 5 < UINT32_MOD
  /\ bounded_reordering 3 5
       (effects_of (run (scenario pktA pktB pktC pktD pktE pktF 6)
                      (ReorderQueue_new (mkQueueSize PACKETS 100) 5 3)))
  /\ scan 3 5 (false, 0)
       (effects_of (run (scenario pktA pktB pktC pktD pktE pktF 6)
                      (ReorderQueue_new (mkQueueSize PACKETS 100) 5 3)))
     = Some (scan_state
               (state_of (run (scenario pktA pktB pktC pktD pktE pktF 6)
                            (ReorderQueue_new (mkQueueSize PACKETS 100) 5 3))))
  /\ released_of
       (effects_of (run (scenario pktA pktB pktC pktD pktE pktF 6)
                      (ReorderQueue_new (mkQueueSize PACKETS 100) 5 3)))
     = dequeued_items
         (ret_of (run (scenario pktA pktB pktC pktD pktE pktF 6)
                    (ReorderQueue_new (mkQueueSize PACKETS 100) 5 3)))
  /\ counters_bounded
       (state_of (run (scenario pktA pktB pktC pktD pktE pktF 6)
                    (ReorderQueue_new (mkQueueSize PACKETS 100) 5 3))).
Proof.
  assert (HL : is_uint32 3) by (unfold is_uint32, UINT32_MOD; lia).
  assert (HD : 1 <= 5 < UINT32_MOD) by (unfold UINT32_MOD; lia).
  split; [exact HL|]. split; [exact HD|].
  apply (C6_bounded_reordering (Item := Packet) (mkQueueSize PACKETS 100) 5 3 _ HL HD).
Defined.

Lemma C8_witness :
  let q := state_of (run (map OpEnqueue [pktA; pktB; pktC; pktD] ++ repeat OpDequeue 3)
                       default_queue) in
  m_packets q = [pktD]
  /\ m_inSequenceCount q = m_inSequenceLength q
  /\ ret_of (Dequeue q) = Some pktD
  /\ m_held (state_of (Dequeue q)) = None
  /\ m_packets (state_of (Dequeue q)) = []
  /\ m_bytesInQueue (state_of (Dequeue q)) = wrap32 (m_bytesInQueue q - GetSize pktD)
  /\ effects_of (Dequeue q)
     = [NS_LOG_LOGIC (LogHold pktD); NS_LOG_LOGIC (LogReleaseAnyway pktD)].
Proof.
  intros q. split; [reflexivity|]. split; [reflexivity|].
  apply (C8_drain_safety q pktD).
  - reflexivity.
  - left. reflexivity.
  - reflexivity.
Defined.

(** The rejection scenario: limit of 2 elements, A and B accepted, C
    rejected. *)
Lemma C9_witness :
  let q := state_of (run [OpEnqueue pktA; OpEnqueue pktB]
                       (ReorderQueue_new (mkQueueSize PACKETS 2) 5 3)) in
  ret_of (Enqueue pktC q) = false
  /\ drops_of (effects_of (Enqueue pktC q)) = [pktC]
  /\ state_of (Enqueue pktC q) = q
  /\ m_packets (state_of (Enqueue pktC q)) = m_packets q
  /\ m_bytesInQueue (state_of (Enqueue pktC q)) = m_bytesInQueue q
  /\ m_held (state_of (Enqueue pktC q)) = m_held q
  /\ m_holdCount (state_of (Enqueue pktC q)) = m_holdCount q
  /\ m_inSequenceCount (state_of (Enqueue pktC q)) = m_inSequenceCount q.
Proof.
  intros q. split; [reflexivity|].
  apply (C9_rejection pktC q). reflexivity.
Defined.

(** * The further properties on concrete packets *)

Lemma conservation_enqueue_dequeue_witness :
  1 <= 3
  /\ Permutation
       (accepted (queue_calls [Some pktA; Some pktB; None; Some pktC; None])
          (ret_of (run (queue_calls [Some pktA; Some pktB; None; Some pktC; None])
                     (ReorderQueue_new (mkQueueSize PACKETS 2) 5 3))))
       (returned
          (ret_of (run (queue_calls [Some pktA; Some pktB; None; Some pktC; None])
                     (ReorderQueue_new (mkQueueSize PACKETS 2) 5 3)))
        ++ m_packets
             (state_of (run (queue_calls [Some pktA; Some pktB; None; Some pktC; None])
                          (ReorderQueue_new (mkQueueSize PACKETS 2) 5 3)))
        ++ held_items
             (m_held
                (state_of (run (queue_calls [Some pktA; Some pktB; None; Some pktC; None])
                             (ReorderQueue_new (mkQueueSize PACKETS 2) 5 3))))).
Proof.
  split; [lia|].
  apply (conservation_enqueue_dequeue (Item := Packet) (mkQueueSize PACKETS 2) 5 3).
  lia.
Defined.

Lemma Dequeue_returns_held_head_or_second_witness :
  let q := state_of (run (scenario pktA pktB pktC pktD pktE pktF 3) default_queue) in
  ret_of (Dequeue q) = Some pktE
  /\ ((m_held q = Some pktE /\ m_holdCount q = m_reorderDepth q)
      \/ hd_error (m_packets q) = Some pktE
      \/ (m_inSequenceCount q = m_inSequenceLength q
          /\ nth_error (m_packets q) 1 = Some pktE)).
Proof.
  intros q. split; [reflexivity|].
  apply (Dequeue_returns_held_head_or_second q pktE). reflexivity.
Defined.

Lemma Enqueue_then_Dequeue_empty_store_witness :
  m_packets (default_queue (Item := Packet)) = []
  /\ ret_of (Enqueue pktA default_queue) = true
  /\ ret_of (Dequeue (state_of (Enqueue pktA default_queue))) = Some pktA
  /\ m_packets (state_of (Dequeue (state_of (Enqueue pktA default_queue)))) = [].
Proof.
  split; [reflexivity|]. split; [reflexivity|].
  apply (Enqueue_then_Dequeue_empty_store pktA default_queue); reflexivity.
Defined.

Lemma in_sequence_fifo_witness :
  let q := state_of (run (scenario pktA pktB pktC pktD pktE pktF 0) default_queue) in
  m_held q = None
  /\ 0 <= m_inSequenceCount q
  /\ m_inSequenceCount q + Z.of_nat 3 <= m_inSequenceLength q
  /\ m_inSequenceLength q < UINT32_MOD
  /\ (3 <= length (m_packets q))%nat
  /\ dequeued (ret_of (run (repeat OpDequeue 3) q))
     = map Some (firstn 3 (m_packets q))
  /\ m_packets (state_of (run (repeat OpDequeue 3) q)) = skipn 3 (m_packets q)
  /\ m_held (state_of (run (repeat OpDequeue 3) q)) = None
  /\ m_inSequenceCount (state_of (run (repeat OpDequeue 3) q))
     = m_inSequenceCount q + Z.of_nat 3.
Proof.
  intros q.
  assert (H1 : m_held q = None) by reflexivity.
  assert (H2 : 0 <= m_inSequenceCount q) by (vm_compute; discriminate).
  assert (H3 : m_inSequenceCount q + Z.of_nat 3 <= m_inSequenceLength q)
    by (vm_compute; discriminate).
  assert (H4 : m_inSequenceLength q < UINT32_MOD) by reflexivity.
  assert (H5 : (3 <= length (m_packets q))%nat) by (vm_compute; lia).
  repeat (split; [assumption|]).
  exact (in_sequence_fifo 3 q H1 H2 H3 H4 H5).
Defined.

(** Thirteen packets enqueued, four calls of [Dequeue] made: packet 4 is
    held, packet 5 has passed it. *)
Lemma held_released_after_depth_witness :
  let q := state_of
             (run (map (fun n => OpEnqueue (pkt (Z.of_nat n))) (seq 1 13)
                   ++ repeat OpDequeue 4) default_queue) in
  m_held q = Some (pkt 4)
  /\ m_inSequenceCount q <> m_inSequenceLength q
  /\ 0 <= m_holdCount q
  /\ m_holdCount q + Z.of_nat 4 = m_reorderDepth q
  /\ m_reorderDepth q < UINT32_MOD
  /\ (4 < length (m_packets q))%nat
  /\ dequeued (ret_of (run (repeat OpDequeue 5) q))
     = map Some (firstn 4 (m_packets q)) ++ [Some (pkt 4)]
  /\ m_packets (state_of (run (repeat OpDequeue 5) q)) = skipn 4 (m_packets q)
  /\ m_held (state_of (run (repeat OpDequeue 5) q)) = None
  /\ m_holdCount (state_of (run (repeat OpDequeue 5) q)) = 0
  /\ m_inSequenceCount (state_of (run (repeat OpDequeue 5) q)) = 0.
Proof.
  intros q.
  assert (H1 : m_held q = Some (pkt 4)) by reflexivity.
  assert (H2 : m_inSequenceCount q <> m_inSequenceLength q)
    by (vm_compute; discriminate).
  assert (H3 : 0 <= m_holdCount q) by (vm_compute; discriminate).
  assert (H4 : m_holdCount q + Z.of_nat 4 = m_reorderDepth q) by reflexivity.
  assert (H5 : m_reorderDepth q < UINT32_MOD) by reflexivity.
  assert (H6 : (4 < length (m_packets q))%nat) by (vm_compute; lia).
  repeat (split; [assumption|]).
  exact (held_released_after_depth 4 q (pkt 4) H1 H2 H3 H4 H5 H6).
Defined.

(** Thirteen packets enqueued, three calls of [Dequeue] made: the hold
    trigger is reached with packet 4 at the head. *)
Lemma hold_displaces_by_depth_witness :
  let q := state_of
             (run (map (fun n => OpEnqueue (pkt (Z.of_nat n))) (seq 1 13)
                   ++ repeat OpDequeue 3) default_queue) in
  let ys := map (fun n => pkt (Z.of_nat n)) (seq 5 9) in
  m_packets q = pkt 4 :: ys
  /\ m_held q = None
  /\ m_inSequenceCount q = m_inSequenceLength q
  /\ 1 <= m_inSequenceLength q
  /\ m_reorderDepth q = Z.of_nat 5
  /\ m_reorderDepth q < UINT32_MOD
  /\ (5 < length ys)%nat
  /\ dequeued (ret_of (run (repeat OpDequeue 6) q))
     = map Some (firstn 5 ys) ++ [Some (pkt 4)]
  /\ m_packets (state_of (run (repeat OpDequeue 6) q)) = skipn 5 ys
  /\ m_held (state_of (run (repeat OpDequeue 6) q)) = None.
Proof.
  intros q ys.
  assert (H1 : m_packets q = pkt 4 :: ys) by reflexivity.
  assert (H2 : m_held q = None) by reflexivity.
  assert (H3 : m_inSequenceCount q = m_inSequenceLength q) by reflexivity.
  assert (H4 : 1 <= m_inSequenceLength q) by (vm_compute; discriminate).
  assert (H5 : m_reorderDepth q = Z.of_nat 5) by reflexivity.
  assert (H6 : m_reorderDepth q < UINT32_MOD) by reflexivity.
  assert (H7 : (5 < length ys)%nat) by (vm_compute; lia).
  repeat (split; [assumption|]).
  exact (hold_displaces_by_depth 4 q (pkt 4) ys H1 H2 H3 H4 H5 H6 H7).
Defined.

Lemma packet_mode_store_bound_witness :
  0 <= 2
  /\ Z.of_nat
       (length (m_packets
          (state_of (run (queue_calls [Some pktA; Some pktB; Some pktC; None])
                       (ReorderQueue_new (mkQueueSize PACKETS 2) 5 3)))))
     <= 2.
Proof.
  split; [lia|].
  apply (packet_mode_store_bound (Item := Packet) 2 5 3). lia.
Defined.

Lemma byte_mode_counter_exact_witness :
  1 <= 250 <= UINT32_MOD
  /\ 1 <= 3
  /\ Forall (call_fits 250) [Some pktA; Some pktB; Some pktC; None]
  /\ bytes_exact 250
       (state_of (run (queue_calls [Some pktA; Some pktB; Some pktC; None])
                    (ReorderQueue_new (mkQueueSize BYTES 250) 5 3))).
Proof.
  assert (HB : 1 <= 250 <= UINT32_MOD) by (unfold UINT32_MOD; lia).
  assert (HL : 1 <= 3) by lia.
  assert (Hcs : Forall (call_fits 250) [Some pktA; Some pktB; Some pktC; None]).
  { repeat constructor; unfold UINT32_MOD; cbn; lia. }
  repeat (split; [assumption|]).
  exact (byte_mode_counter_exact (Item := Packet) 250 5 3 _ HB HL Hcs).
Defined.

(** Thirteen packets in a queue with the default attributes: packets 1 to 3
    leave in order, packets 5 to 9 pass packet 4, then packet 4 leaves. *)
Lemma first_reordering_cycle_witness :
  let q := state_of
             (run (map (fun n => OpEnqueue (pkt (Z.of_nat n))) (seq 1 13))
                default_queue) in
  let xs := map (fun n => pkt (Z.of_nat n)) (seq 1 3) in
  let ys := map (fun n => pkt (Z.of_nat n)) (seq 5 9) in
  m_packets q = xs ++ pkt 4 :: ys
  /\ m_held q = None
  /\ m_inSequenceCount q = 0
  /\ m_inSequenceLength q = Z.of_nat (length xs)
  /\ 1 <= m_inSequenceLength q < UINT32_MOD
  /\ m_reorderDepth q = Z.of_nat 5
  /\ m_reorderDepth q < UINT32_MOD
  /\ (5 < length ys)%nat
  /\ dequeued (ret_of (run (repeat OpDequeue (length xs + 6)) q))
     = map Some xs ++ map Some (firstn 5 ys) ++ [Some (pkt 4)]
  /\ m_packets (state_of (run (repeat OpDequeue (length xs + 6)) q)) = skipn 5 ys
  /\ m_held (state_of (run (repeat OpDequeue (length xs + 6)) q)) = None.
Proof.
  intros q xs ys.
  assert (H1 : m_packets q = xs ++ pkt 4 :: ys) by reflexivity.
  assert (H2 : m_held q = None) by reflexivity.
  assert (H3 : m_inSequenceCount q = 0) by reflexivity.
  assert (H4 : m_inSequenceLength q = Z.of_nat (length xs)) by reflexivity.
  assert (H5 : 1 <= m_inSequenceLength q < UINT32_MOD)
    by (split; [vm_compute; discriminate | reflexivity]).
  assert (H6 : m_reorderDepth q = Z.of_nat 5) by reflexivity.
  assert (H7 : m_reorderDepth q < UINT32_MOD) by reflexivity.
  assert (H8 : (5 < length ys)%nat) by (vm_compute; lia).
  repeat (split; [assumption|]).
  exact (first_reordering_cycle 4 q xs (pkt 4) ys H1 H2 H3 H4 H5 H6 H7 H8).
Defined.

(** The scenario of the defaults after four calls of [Dequeue]: D is held,
    E has passed it and only F is left in the Store. *)
Lemma held_kept_when_store_short_witness :
  let q := state_of (run (scenario pktA pktB pktC pktD pktE pktF 4) default_queue) in
  m_held q = Some pktD
  /\ m_inSequenceCount q <> m_inSequenceLength q
  /\ 0 <= m_holdCount q
  /\ m_holdCount q + Z.of_nat (length (m_packets q)) <= m_reorderDepth q
  /\ m_reorderDepth q < UINT32_MOD
  /\ dequeued (ret_of (run (repeat OpDequeue (length (m_packets q) + 3)) q))
     = map Some (m_packets q) ++ repeat None 3
  /\ m_packets (state_of (run (repeat OpDequeue (length (m_packets q) + 3)) q)) = []
  /\ m_held (state_of (run (repeat OpDequeue (length (m_packets q) + 3)) q))
     = Some pktD.
Proof.
  intros q.
  assert (H1 : m_held q = Some pktD) by reflexivity.
  assert (H2 : m_inSequenceCount q <> m_inSequenceLength q)
    by (vm_compute; discriminate).
  assert (H3 : 0 <= m_holdCount q) by (vm_compute; discriminate).
  assert (H4 : m_holdCount q + Z.of_nat (length (m_packets q)) <= m_reorderDepth q)
    by (vm_compute; discriminate).
  assert (H5 : m_reorderDepth q < UINT32_MOD) by reflexivity.
  repeat (split; [assumption|]).
  exact (held_kept_when_store_short 3 q pktD H1 H2 H3 H4 H5).
Defined.
